(** * mal-mcp-server: client-side filtering and pagination reconciliation

    A shallow embedding of [src/filters.ts] (with the response types of
    [src/types.ts]) and the properties of its predicate evaluator
    [matchesFilters], its description builder
    [buildActiveFilterDescriptions] and its orchestrator [filteredFetch].

    Modelling conventions.
    - JavaScript strings are [string]. [String.prototype.toLowerCase] is
      taken as given: the predicate and everything built on it are stated
      for an arbitrary conversion [toLowerCase], so that what is proved
      holds for the conversion of the engine on the letters of every
      script. The concrete calls use its restriction to ASCII strings.
      [toUpperCase] is applied to the two values of [genre_mode] only.
    - Integer-valued numbers (limits, offsets, array lengths, member
      counts, years) are [Z]; scores ([mean], [min_score]) are [Q], every
      finite double being a rational, compared with the rational order.
      [Number.prototype.toString], as the template literals of the
      description builder apply it to the two thresholds, is taken as given
      as well.
    - An optional property [x?: t] is [option t]; [undefined] is [None].
    - A promise-returning function is a function of the state of the
      remote side that yields either a rejection reason or a value. *)

From Stdlib Require Import List ZArith QArith Qround Bool String Ascii DecimalString Lia.
Import ListNotations.

Open Scope string_scope.
Open Scope Z_scope.

(** ** JavaScript value helpers *)

Module JS.

Definition lower_ascii (c : ascii) : ascii :=
  let n := N_of_ascii c in
  if ((65 <=? n) && (n <=? 90))%N then ascii_of_N (n + 32) else c.

Definition upper_ascii (c : ascii) : ascii :=
  let n := N_of_ascii c in
  if ((97 <=? n) && (n <=? 122))%N then ascii_of_N (n - 32) else c.

Fixpoint map_chars (f : ascii -> ascii) (s : string) : string :=
  match s with
  | EmptyString => EmptyString
  | String c s' => String (f c) (map_chars f s')
  end.

(** [s.toLowerCase()] and [s.toUpperCase()] on a string of ASCII
    characters: the letters A-Z, respectively a-z, are mapped and every
    other character is left alone. *)
Definition ascii_toLowerCase : string -> string := map_chars lower_ascii.
Definition toUpperCase : string -> string := map_chars upper_ascii.

(** Truthiness of an optional string: [undefined] and the empty string
    are falsy. *)
Definition truthy_string (s : option string) : bool :=
  match s with
  | Some EmptyString => false
  | Some _ => true
  | None => false
  end.

(** Truthiness of an optional boolean. *)
Definition truthy_bool (b : option bool) : bool :=
  match b with
  | Some true => true
  | _ => false
  end.

(** [a.length] as a number. *)
Definition len {A} (l : list A) : Z := Z.of_nat (List.length l).

(** [a?.length] used as a condition, and [a && a.length > 0]: the array
    is defined and not empty. *)
Definition nonempty {A} (a : option (list A)) : bool :=
  match a with
  | Some l => 0 <? len l
  | None => false
  end.

(** [a ?? d]. *)
Definition orElse {A} (a : option A) (d : A) : A :=
  match a with
  | Some x => x
  | None => d
  end.

(** [a.includes(x)] on an array of strings. *)
Definition includes (a : list string) (x : string) : bool :=
  existsb (String.eqb x) a.

(** [a.join(sep)]. *)
Definition join (sep : string) (a : list string) : string :=
  String.concat sep a.

(** [a.slice(0, end)]: a negative [end] counts from the end of the
    array, and the bounds are clamped to the array. *)
Definition slice0 {A} (end_ : Z) (a : list A) : list A :=
  let k := if end_ <? 0 then Z.max (len a + end_) 0 else Z.min end_ (len a) in
  firstn (Z.to_nat k) a.

(** [x < y] on scores. *)
Definition ltb_number (x y : Q) : bool :=
  match (x ?= y)%Q with
  | Lt => true
  | _ => false
  end.

End JS.

Notation "a ?? d" := (JS.orElse a d) (at level 45, left associativity).

(** [String.prototype.toLowerCase]. The conversion is the engine's and
    covers the letters of every script; it is a parameter of the model,
    and what is proved of the predicate holds for every such function. *)
Class LowerCasing := toLowerCase : string -> string.

(** ** Data model ([types.ts], [filters.ts]) *)

(** [MalPaging] and [MalListResponse<T>]. *)
Record MalPaging := {
  previous : option string;
  next : option string
}.

Record MalListResponse (T : Type) := {
  data : list T;
  paging : MalPaging
}.
Arguments data {T} _.
Arguments paging {T} _.

(** [FilterMeta]; the optional [nextOffset] is [None] when the property is
    missing or [undefined]. *)
Record FilterMeta := {
  totalScanned : Z;
  totalMatched : Z;
  pagesScanned : Z;
  activeFilters : list string;
  hasMorePages : bool;
  nextOffset : option Z
}.

(** The element of [genres] and the value of [start_season]. *)
Record Genre := { name : string }.
Record StartSeason := { year : Z; season : string }.

(** [FilterableNode]. *)
Module Node.
Record t := {
  genres : option (list Genre);
  mean : option Q;
  media_type : option string;
  status : option string;
  num_list_users : option Z;
  source : option string;
  start_season : option StartSeason
}.
End Node.
Abbreviation FilterableNode := Node.t.

Inductive GenreMode := ModeOr | ModeAnd.

(** [FilterParams], the typed view of the filter object. *)
Module Params.
Record t := {
  genres_include : option (list string);
  genres_exclude : option (list string);
  genre_mode : option GenreMode;
  min_score : option Q;
  min_members : option Z;
  media_type : option (list string);
  status : option string;
  source : option (list string);
  current_season_only : option bool
}.
End Params.
Abbreviation FilterParams := Params.t.

Record SeasonContext := {
  queriedYear : Z;
  queriedSeason : string
}.

(** ** Predicate *)

(** [if (c) return false; k] *)
Notation "'REJECT_IF' c ';;' k" := (if c then false else k)
  (at level 10, c at level 99, k at level 200, only parsing).

Definition matchesFilters {L : LowerCasing} (node : FilterableNode)
    (filters : FilterParams) (seasonContext : option SeasonContext) : bool :=
  let genreNames :=
    map (fun g => toLowerCase (name g)) (Node.genres node ?? []) in
  REJECT_IF
    (if JS.nonempty (Params.genres_include filters) then
       let wanted := map toLowerCase (Params.genres_include filters ?? []) in
       let mode := Params.genre_mode filters ?? ModeOr in
       match mode with
       | ModeAnd => negb (forallb (fun w => JS.includes genreNames w) wanted)
       | ModeOr => negb (existsb (fun w => JS.includes genreNames w) wanted)
       end
     else false) ;;
  REJECT_IF
    (if JS.nonempty (Params.genres_exclude filters) then
       let excluded := map toLowerCase (Params.genres_exclude filters ?? []) in
       existsb (fun e => JS.includes genreNames e) excluded
     else false) ;;
  REJECT_IF
    (match Params.min_score filters with
     | Some min_score =>
         match Node.mean node with
         | None => true
         | Some mean => JS.ltb_number mean min_score
         end
     | None => false
     end) ;;
  REJECT_IF
    (match Params.min_members filters with
     | Some min_members => (Node.num_list_users node ?? 0) <? min_members
     | None => false
     end) ;;
  REJECT_IF
    (if JS.nonempty (Params.media_type filters) then
       match Node.media_type node with
       | Some mt =>
           negb (JS.truthy_string (Some mt))
           || negb (JS.includes (Params.media_type filters ?? []) mt)
       | None => true
       end
     else false) ;;
  REJECT_IF
    (if JS.truthy_string (Params.status filters) then
       match Node.status node, Params.status filters with
       | Some s, Some s' => negb (String.eqb s s')
       | _, _ => true
       end
     else false) ;;
  REJECT_IF
    (if JS.nonempty (Params.source filters) then
       match Node.source node with
       | Some src =>
           negb (JS.truthy_string (Some src))
           || negb (JS.includes (Params.source filters ?? []) src)
       | None => true
       end
     else false) ;;
  REJECT_IF
    (if JS.truthy_bool (Params.current_season_only filters) then
       match seasonContext with
       | Some ctx =>
           match Node.start_season node with
           | None => true
           | Some ss =>
               negb (year ss =? queriedYear ctx)
               || negb (String.eqb (season ss) (queriedSeason ctx))
           end
       | None => false
       end
     else false) ;;
  true.

(** ** Filter helpers *)

(** The values a filter object holds, as [hasActiveFilters] inspects them
    ([unknown] in the source). *)
Inductive Value :=
| VUndefined
| VBoolean (b : bool)
| VNumber (q : Q)
| VString (s : string)
| VArray (a : list string).

Definition mode_string (m : GenreMode) : string :=
  match m with
  | ModeOr => "or"
  | ModeAnd => "and"
  end.

(** One entry of [Object.entries(filters)]; [pickFilters] copies a key only
    when its value is not [undefined]. *)
Definition entry {A} (key : string) (inj : A -> Value) (v : option A)
    : list (string * Value) :=
  match v with
  | Some x => [(key, inj x)]
  | None => []
  end.

(** [Object.entries(filters)], in the order of [SEASONAL_FILTER_KEYS]. *)
Definition entries (filters : FilterParams) : list (string * Value) :=
  (entry "genres_include" VArray (Params.genres_include filters)
   ++ entry "genres_exclude" VArray (Params.genres_exclude filters)
   ++ entry "genre_mode" (fun m => VString (mode_string m)) (Params.genre_mode filters)
   ++ entry "min_score" VNumber (Params.min_score filters)
   ++ entry "min_members" (fun n => VNumber (inject_Z n)) (Params.min_members filters)
   ++ entry "media_type" VArray (Params.media_type filters)
   ++ entry "status" VString (Params.status filters)
   ++ entry "source" VArray (Params.source filters)
   ++ entry "current_season_only" VBoolean (Params.current_season_only filters))%list.

(** Keys that modify filter behavior but aren't filters themselves. *)
Definition MODIFIER_KEYS : list string := ["genre_mode"].

(** The callback of [some] in [hasActiveFilters]. *)
Definition active_entry (e : string * Value) : bool :=
  let '(key, value) := e in
  if existsb (String.eqb key) MODIFIER_KEYS then false
  else
    match value with
    | VUndefined => false
    | VBoolean false => false
    | VArray [] => false
    | _ => true
    end.

Definition hasActiveFilters (filters : FilterParams) : bool :=
  existsb active_entry (entries filters).

(** ** Filter description builder *)

(** Decimal rendering of an integer-valued number below 1e21, as the
    template literals write array lengths, positions, identifiers, years
    and episode counts. *)
Definition integer_toString (n : Z) : string :=
  NilEmpty.string_of_int (Z.to_int n).

(** [parts.push(s)], and the same under a condition. *)
Definition push {A} (parts : list A) (s : A) : list A := (parts ++ [s])%list.

Definition push_if (c : bool) (s : string) (parts : list string) : list string :=
  if c then push parts s else parts.

Section Builder.

(** [Number.prototype.toString], as the template literals apply it to
    [min_score] and to [min_members], neither of which the schemas bound
    from above. *)
Variable number_toString : Q -> string.

Definition buildActiveFilterDescriptions (filters : FilterParams) : list string :=
  let parts : list string := [] in
  let parts :=
    push_if (JS.nonempty (Params.genres_include filters))
      (let mode :=
         JS.toUpperCase (mode_string (Params.genre_mode filters ?? ModeOr)) in
       "genres(" ++ mode ++ ")="
         ++ JS.join "," (Params.genres_include filters ?? []))
      parts in
  let parts :=
    push_if (JS.nonempty (Params.genres_exclude filters))
      ("exclude_genres=" ++ JS.join "," (Params.genres_exclude filters ?? []))
      parts in
  let parts :=
    match Params.min_score filters with
    | Some s => push parts ("min_score>=" ++ number_toString s)
    | None => parts
    end in
  let parts :=
    match Params.min_members filters with
    | Some n => push parts ("min_members>=" ++ number_toString (inject_Z n))
    | None => parts
    end in
  let parts :=
    push_if (JS.nonempty (Params.media_type filters))
      ("media_type=" ++ JS.join "," (Params.media_type filters ?? []))
      parts in
  let parts :=
    push_if (JS.truthy_string (Params.status filters))
      ("status=" ++ (Params.status filters ?? ""))
      parts in
  let parts :=
    push_if (JS.nonempty (Params.source filters))
      ("source=" ++ JS.join "," (Params.source filters ?? []))
      parts in
  let parts :=
    push_if (JS.truthy_bool (Params.current_season_only filters))
      "current_season_only"
      parts in
  parts.

End Builder.

(** ** Auto-paginating filtered fetch *)

Definition FILTERED_PAGE_SIZE : Z := 100.

Section Fetch.

(** [T extends { node: FilterableNode }]. *)
Context {T : Type}.
Variable node : T -> FilterableNode.

Variable number_toString : Q -> string.

(** Rejection reasons, and the state of the remote side. *)
Context {E W : Type}.

Context {L : LowerCasing}.

(** A promise-returning call: run against the remote state, it rejects
    with a reason or resolves to a value. *)
Definition Promise (A : Type) : Type := W -> (E + A) * W.

(** The body of an [async] function. Besides the remote state it threads
    the list of [(limit, offset)] pairs [fetchPage] was called with, in
    call order. *)
Definition Async (A : Type) : Type :=
  W * list (Z * Z) -> (E + A) * (W * list (Z * Z)).

Definition ret {A} (a : A) : Async A := fun s => (inr a, s).

(** Sequencing; a rejection skips the rest of the body, there being no
    [try]/[catch] in the source. *)
Definition bind {A B} (m : Async A) (k : A -> Async B) : Async B :=
  fun s =>
    match m s with
    | (inl e, s') => (inl e, s')
    | (inr a, s') => k a s'
    end.

(** [await fetchPage(limit, offset)]. *)
Definition await_call {A} (fetchPage : Z -> Z -> Promise A) (limit offset : Z)
    : Async A :=
  fun '(w, calls) =>
    let '(r, w') := fetchPage limit offset w in
    (r, (w', push calls (limit, offset))).

Record Options := {
  fetchPage : Z -> Z -> Promise (MalListResponse T);
  filters : FilterParams;
  requestedLimit : Z;
  initialOffset : Z;
  seasonContext : option SeasonContext
}.

Record Fetched := {
  items : list T;
  meta : FilterMeta
}.

(** The [for (const item of result.data)] loop, from the state [matched]
    of the accumulator at the head of the remaining window. *)
Fixpoint scan (filters : FilterParams) (requestedLimit : Z)
    (seasonContext : option SeasonContext) (window matched : list T) : list T :=
  match window with
  | [] => matched
  | item :: window' =>
      if matchesFilters (node item) filters seasonContext then
        let matched := push matched item in
        if requestedLimit <=? JS.len matched then matched
        else scan filters requestedLimit seasonContext window' matched
      else scan filters requestedLimit seasonContext window' matched
  end.

Definition filteredFetch (options : Options) : Async Fetched :=
  if negb (hasActiveFilters (filters options)) then
    bind (await_call (fetchPage options)
            (requestedLimit options) (initialOffset options))
      (fun result =>
         ret {| items := data result;
                meta := {| totalScanned := JS.len (data result);
                           totalMatched := JS.len (data result);
                           pagesScanned := 1;
                           activeFilters := [];
                           hasMorePages := JS.truthy_string (next (paging result));
                           nextOffset := None |} |})
  else
    bind (await_call (fetchPage options)
            FILTERED_PAGE_SIZE (initialOffset options))
      (fun result =>
         let matched :=
           scan (filters options) (requestedLimit options)
             (seasonContext options) (data result) [] in
         let hasMore :=
           JS.truthy_string (next (paging result))
           && (FILTERED_PAGE_SIZE <=? JS.len (data result)) in
         ret {| items := JS.slice0 (requestedLimit options) matched;
                meta := {| totalScanned := JS.len (data result);
                           totalMatched := JS.len matched;
                           pagesScanned := 1;
                           activeFilters :=
                             buildActiveFilterDescriptions number_toString
                               (filters options);
                           hasMorePages := hasMore;
                           nextOffset :=
                             if hasMore
                             then Some (initialOffset options
                                        + JS.len (data result))
                             else None |} |}).

(** The size of the page a call asks the remote for. *)
Definition pageSize (options : Options) : Z :=
  if hasActiveFilters (filters options) then FILTERED_PAGE_SIZE
  else requestedLimit options.

(** The records of a window that pass the predicate, in arrival order. *)
Definition passing (options : Options) (window : list T) : list T :=
  filter
    (fun item => matchesFilters (node item) (filters options) (seasonContext options))
    window.

End Fetch.

Arguments Options T {E W}.

(** ** Filter objects ([filters.ts]) *)

Module Obj.

(** A plain object with string keys ([Record<string, unknown>]): its own
    properties in insertion order. The keys in play are the fixed filter
    keys, none of which is an index or a name of the prototype. *)
Definition t : Type := list (string * Value).

(** [o[key]]: the value of the property, [undefined] when there is
    none. *)
Fixpoint get (o : t) (key : string) : Value :=
  match o with
  | [] => VUndefined
  | (k, v) :: o' => if String.eqb k key then v else get o' key
  end.

(** [o[key] = v]: the property keeps its place when it exists and is
    added last when it does not. *)
Fixpoint set (o : t) (key : string) (v : Value) : t :=
  match o with
  | [] => [(key, v)]
  | (k, v0) :: o' =>
      if String.eqb k key then (k, v) :: o' else (k, v0) :: set o' key v
  end.

(** [Object.keys(o)]. *)
Definition keys (o : t) : list string := map fst o.

End Obj.

(** [v !== undefined]. *)
Definition defined (v : Value) : bool :=
  match v with
  | VUndefined => false
  | _ => true
  end.

Definition ANIME_FILTER_KEYS : list string :=
  ["genres_include"; "genres_exclude"; "genre_mode"; "min_score"; "min_members";
   "media_type"; "status"; "source"].

Definition SEASONAL_FILTER_KEYS : list string :=
  (ANIME_FILTER_KEYS ++ ["current_season_only"])%list.

Definition MANGA_FILTER_KEYS : list string :=
  ["genres_include"; "genres_exclude"; "genre_mode"; "min_score"; "min_members";
   "media_type"; "status"].

Definition pickFilters (args : Obj.t) (filterKeys : list string) : Obj.t :=
  fold_left
    (fun result key =>
       if defined (Obj.get args key)
       then Obj.set result key (Obj.get args key)
       else result)
    filterKeys [].

(** [hasActiveFilters] on the filter object itself: [some] over
    [Object.entries(filters)]. The function of the same name above is
    this one on the entries of the typed view. *)
Definition hasActiveFilters_object (filters : Obj.t) : bool :=
  existsb active_entry filters.

(** *** The typed view of a filter object

    [filters as FilterParams]: each field read from its key, at the type
    the schemas give it. *)

Definition as_array (v : Value) : option (list string) :=
  match v with
  | VArray a => Some a
  | _ => None
  end.

Definition as_number (v : Value) : option Q :=
  match v with
  | VNumber q => Some q
  | _ => None
  end.

Definition as_integer (v : Value) : option Z :=
  match v with
  | VNumber q => Some (Qfloor q)
  | _ => None
  end.

Definition as_string (v : Value) : option string :=
  match v with
  | VString s => Some s
  | _ => None
  end.

Definition as_boolean (v : Value) : option bool :=
  match v with
  | VBoolean b => Some b
  | _ => None
  end.

Definition as_mode (v : Value) : option GenreMode :=
  match v with
  | VString s => if String.eqb s "and" then Some ModeAnd else Some ModeOr
  | _ => None
  end.

Definition FilterParams_of (filters : Obj.t) : FilterParams :=
  {| Params.genres_include := as_array (Obj.get filters "genres_include");
     Params.genres_exclude := as_array (Obj.get filters "genres_exclude");
     Params.genre_mode := as_mode (Obj.get filters "genre_mode");
     Params.min_score := as_number (Obj.get filters "min_score");
     Params.min_members := as_integer (Obj.get filters "min_members");
     Params.media_type := as_array (Obj.get filters "media_type");
     Params.status := as_string (Obj.get filters "status");
     Params.source := as_array (Obj.get filters "source");
     Params.current_season_only :=
       as_boolean (Obj.get filters "current_season_only") |}.

(** What the schemas of [filters.ts] accept under a filter key: the key
    left out, or a value of the type of the key. *)
Definition schema_accepts (key : string) (v : Value) : bool :=
  match v with
  | VUndefined => true
  | VArray _ =>
      existsb (String.eqb key)
        ["genres_include"; "genres_exclude"; "media_type"; "source"]
  | VString s =>
      (String.eqb key "genre_mode" && (String.eqb s "or" || String.eqb s "and"))
      || String.eqb key "status"
  | VNumber q =>
      String.eqb key "min_score"
      || (String.eqb key "min_members" && Qeq_bool q (inject_Z (Qfloor q)))
  | VBoolean _ => String.eqb key "current_season_only"
  end.

(** ** Formatting ([format.ts]) *)

(** The line feed of ["\n"]. *)
Definition LF : string := String (ascii_of_nat 10) EmptyString.

(** [x.toFixed(2)] below 1e21: the nearest multiple of 1/100, the larger
    one on a tie, of the absolute value, written with two decimals after
    the sign. *)
Definition toFixed2 (x : Q) : string :=
  let negative := JS.ltb_number x 0 in
  let n := Qfloor ((if negative then - x else x) * 100 + (1 # 2)) in
  (if negative then "-" else "")
  ++ integer_toString (n / 100) ++ "."
  ++ integer_toString (n mod 100 / 10) ++ integer_toString (n mod 10).

Definition formatScore (mean : option Q) : string :=
  match mean with
  | Some mean => "★ " ++ toFixed2 mean
  | None => "unrated"
  end.

Definition formatGenres (genres : option (list Genre)) : string :=
  match genres with
  | None => ""
  | Some gs => if JS.len gs =? 0 then "" else JS.join ", " (map name gs)
  end.

(** [s.replace(/_/g, " ")]. *)
Definition replace_underscores (s : string) : string :=
  JS.map_chars (fun c => if Ascii.eqb c "_" then " "%char else c) s.

Definition formatStatus (status : option string) : string :=
  if negb (JS.truthy_string status) then "unknown"
  else replace_underscores (status ?? "").

Definition malUrl (type : string) (id : Z) : string :=
  "https://myanimelist.net/" ++ type ++ "/" ++ integer_toString id.

Definition paginationInfo (paging : MalPaging) : string :=
  let parts : list string := [] in
  let parts :=
    push_if (JS.truthy_string (next paging))
      "More results available (increase offset)." parts in
  if 0 <? JS.len parts then LF ++ JS.join " " parts else "".

(** [MalAnimeStudio], and the fields of [MalAnimeNode] that the list
    formatter and the filter read. *)
Module Studio.
Record t := {
  id : Z;
  name : string
}.
End Studio.

Module Anime.
Record t := {
  id : Z;
  title : string;
  mean : option Q;
  media_type : option string;
  status : option string;
  num_list_users : option Z;
  genres : option (list Genre);
  num_episodes : option Z;
  start_season : option StartSeason;
  source : option string;
  studios : option (list Studio.t)
}.
End Anime.

(** [MalAnimeListItem]. *)
Module AnimeListItem.
Record t := {
  node : Anime.t
}.
End AnimeListItem.

(** A [MalAnimeNode] where a [FilterableNode] is expected. *)
Definition filterable (a : Anime.t) : FilterableNode :=
  {| Node.genres := Anime.genres a;
     Node.mean := Anime.mean a;
     Node.media_type := Anime.media_type a;
     Node.status := Anime.status a;
     Node.num_list_users := Anime.num_list_users a;
     Node.source := Anime.source a;
     Node.start_season := Anime.start_season a |}.

Definition formatAnimeCompact (node : Anime.t) (prefix : string) : string :=
  let parts : list string :=
    [prefix ++ Anime.title node;
     "  ID: " ++ integer_toString (Anime.id node) ++ " | "
       ++ formatScore (Anime.mean node) ++ " | "
       ++ formatStatus (Anime.status node);
     "  Type: " ++ (Anime.media_type node ?? "unknown") ++ " | Episodes: "
       ++ (option_map integer_toString (Anime.num_episodes node) ?? "?")] in
  let parts :=
    push_if (JS.nonempty (Anime.genres node))
      ("  Genres: " ++ formatGenres (Anime.genres node)) parts in
  let parts :=
    match Anime.start_season node with
    | Some ss =>
        push parts
          ("  Season: " ++ season ss ++ " " ++ integer_toString (year ss))
    | None => parts
    end in
  let parts :=
    push_if (JS.nonempty (Anime.studios node))
      ("  Studios: "
         ++ JS.join ", " (map Studio.name (Anime.studios node ?? [])))
      parts in
  let parts := push parts ("  " ++ malUrl "anime" (Anime.id node)) in
  JS.join LF parts.

(** [a.map((x, i) => f(x, i))], the index counted from [i]. *)
Fixpoint mapi_from {A B} (f : A -> Z -> B) (i : Z) (a : list A) : list B :=
  match a with
  | [] => []
  | x :: a' => f x i :: mapi_from f (i + 1) a'
  end.

Definition formatAnimeList (items : list AnimeListItem.t) (paging : MalPaging)
    : string :=
  if JS.len items =? 0 then "No anime found."
  else
    let lines :=
      mapi_from
        (fun item i =>
           formatAnimeCompact (AnimeListItem.node item)
             (integer_toString (i + 1) ++ ". "))
        0 items in
    JS.join (LF ++ LF) lines ++ paginationInfo paging.

Definition formatFilterMeta (meta : FilterMeta) : string :=
  let filterStr := JS.join ", " (activeFilters meta) in
  let pages :=
    if 1 <? pagesScanned meta
    then integer_toString (pagesScanned meta) ++ " pages"
    else "1 page" in
  let showing :=
    "Showing " ++ integer_toString (totalMatched meta)
    ++ " results (filtered from " ++ integer_toString (totalScanned meta)
    ++ " scanned, " ++ pages ++ ")" in
  let more :=
    if hasMorePages meta
    then " | More results may exist beyond scanned pages."
    else "" in
  showing ++ " | Filters: " ++ filterStr ++ more.

(** ** Tool handlers ([index.ts]) *)

(** A thrown value: an [Error] with its message, or anything else with
    what [String] makes of it. *)
Inductive Thrown :=
| ErrorObject (message : string)
| OtherValue (asString : string).

Record TextContent := {
  type : string;
  text : string
}.

Record CallToolResult := {
  content : list TextContent;
  isError : option bool
}.

Definition toolResult (text : string) (isError : bool) : CallToolResult :=
  {| content := [{| type := "text"; text := text |}];
     isError := if isError then Some true else None |}.

(** [new Date()] as far as [getCurrentSeason] reads it. *)
Record Date := {
  getMonth : Z;
  getFullYear : Z
}.

Definition getCurrentSeason (now : Date) : StartSeason :=
  let month := getMonth now + 1 in
  let year := getFullYear now in
  let season :=
    if month <=? 3 then "winter"
    else if month <=? 6 then "spring"
    else if month <=? 9 then "summer"
    else "fall" in
  {| year := year; season := season |}.

Section Handlers.

Variable number_toString : Q -> string.
Context {W : Type}.
Context {L : LowerCasing}.

(** [try { return toolResult(await fn()) } catch (error) { ... }]. *)
Definition handleToolError (fn : Async (E := Thrown) (W := W) string)
    : Async (E := Thrown) (W := W) CallToolResult :=
  fun s =>
    match fn s with
    | (inr text, s') => (inr (toolResult text false), s')
    | (inl error, s') =>
        let message :=
          match error with
          | ErrorObject message => message
          | OtherValue asString => asString
          end in
        (inr (toolResult ("Error: " ++ message) true), s')
    end.

(** The handler of [mal_search_anime], [searchAnime] being the method of
    the client, and [rest] the arguments left after [query], [limit],
    [offset] and [nsfw]. *)
Definition mal_search_anime
    (searchAnime :
       string -> Z -> Z -> bool ->
       Promise (E := Thrown) (W := W) (MalListResponse AnimeListItem.t))
    (query : string) (limit offset : Z) (nsfw : bool) (rest : Obj.t)
    : Async (E := Thrown) (W := W) CallToolResult :=
  handleToolError
    (let filters := pickFilters rest ANIME_FILTER_KEYS in
     bind
       (filteredFetch (fun item => filterable (AnimeListItem.node item))
          number_toString
          {| fetchPage := fun l o => searchAnime query l o nsfw;
             filters := FilterParams_of filters;
             requestedLimit := limit;
             initialOffset := offset;
             seasonContext := None |})
       (fun fetched =>
          let body :=
            formatAnimeList (items fetched)
              {| previous := None;
                 next := if hasMorePages (meta fetched)
                         then Some "yes" else None |} in
          if 0 <? JS.len (activeFilters (meta fetched))
          then ret (formatFilterMeta (meta fetched) ++ LF ++ LF ++ body)
          else ret body)).

End Handlers.

(** ** Vocabulary of the properties *)

(** Functional updates of single fields. *)
Definition with_genre_mode (m : option GenreMode) (f : FilterParams) : FilterParams :=
  {| Params.genres_include := Params.genres_include f;
     Params.genres_exclude := Params.genres_exclude f;
     Params.genre_mode := m;
     Params.min_score := Params.min_score f;
     Params.min_members := Params.min_members f;
     Params.media_type := Params.media_type f;
     Params.status := Params.status f;
     Params.source := Params.source f;
     Params.current_season_only := Params.current_season_only f |}.

Definition with_current_season_only (b : option bool) (f : FilterParams)
    : FilterParams :=
  {| Params.genres_include := Params.genres_include f;
     Params.genres_exclude := Params.genres_exclude f;
     Params.genre_mode := Params.genre_mode f;
     Params.min_score := Params.min_score f;
     Params.min_members := Params.min_members f;
     Params.media_type := Params.media_type f;
     Params.status := Params.status f;
     Params.source := Params.source f;
     Params.current_season_only := b |}.

Definition with_start_season (s : option StartSeason) (n : FilterableNode)
    : FilterableNode :=
  {| Node.genres := Node.genres n;
     Node.mean := Node.mean n;
     Node.media_type := Node.media_type n;
     Node.status := Node.status n;
     Node.num_list_users := Node.num_list_users n;
     Node.source := Node.source n;
     Node.start_season := s |}.

(** Two names that differ at most in the case of their letters: they
    have the same lower-case form. *)
Definition case_variant {L : LowerCasing} (s1 s2 : string) : Prop :=
  toLowerCase s1 = toLowerCase s2.

(** Two optional lists of names, both missing or of the same length with
    case variants at every position. *)
Definition recased {L : LowerCasing} (a1 a2 : option (list string)) : Prop :=
  match a1, a2 with
  | Some l1, Some l2 => Forall2 case_variant l1 l2
  | None, None => True
  | _, _ => False
  end.

Definition genre_names (n : FilterableNode) : option (list string) :=
  option_map (map name) (Node.genres n).

(** Records that agree except for the letter case of their genre names. *)
Definition node_recased {L : LowerCasing} (n1 n2 : FilterableNode) : Prop :=
  recased (genre_names n1) (genre_names n2)
  /\ Node.mean n1 = Node.mean n2
  /\ Node.media_type n1 = Node.media_type n2
  /\ Node.status n1 = Node.status n2
  /\ Node.num_list_users n1 = Node.num_list_users n2
  /\ Node.source n1 = Node.source n2
  /\ Node.start_season n1 = Node.start_season n2.

(** Filter objects that agree except for the letter case of the requested
    genre names. *)
Definition params_recased {L : LowerCasing} (f1 f2 : FilterParams) : Prop :=
  recased (Params.genres_include f1) (Params.genres_include f2)
  /\ recased (Params.genres_exclude f1) (Params.genres_exclude f2)
  /\ Params.genre_mode f1 = Params.genre_mode f2
  /\ Params.min_score f1 = Params.min_score f2
  /\ Params.min_members f1 = Params.min_members f2
  /\ Params.media_type f1 = Params.media_type f2
  /\ Params.status f1 = Params.status f2
  /\ Params.source f1 = Params.source f2
  /\ Params.current_season_only f1 = Params.current_season_only f2.

(** On ASCII strings the relation can be written out character by
    character: two characters are the same, or one is a capital letter
    and the other the small letter 32 places after it. *)
Definition same_letter (c1 c2 : ascii) : bool :=
  let n1 := N_of_ascii c1 in
  let n2 := N_of_ascii c2 in
  (Ascii.eqb c1 c2
   || ((65 <=? n1) && (n1 <=? 90) && (n2 =? n1 + 32))
   || ((65 <=? n2) && (n2 <=? 90) && (n1 =? n2 + 32)))%N.

Fixpoint same_letters (s1 s2 : string) : bool :=
  match s1, s2 with
  | EmptyString, EmptyString => true
  | String c1 s1', String c2 s2' => same_letter c1 c2 && same_letters s1' s2'
  | _, _ => false
  end.

(** The 256 characters. *)
Definition all_ascii : list ascii := map ascii_of_nat (seq 0 256).

(** The record carries the genre [w], letter case apart. *)
Definition has_genre {L : LowerCasing} (n : FilterableNode) (w : string)
    : Prop :=
  exists g, In g (Node.genres n ?? []) /\ case_variant (name g) w.

(** A filter object that sets the genre fields only. *)
Definition genre_filter (wanted excluded : option (list string))
    (mode : option GenreMode) : FilterParams :=
  {| Params.genres_include := wanted;
     Params.genres_exclude := excluded;
     Params.genre_mode := mode;
     Params.min_score := None;
     Params.min_members := None;
     Params.media_type := None;
     Params.status := None;
     Params.source := None;
     Params.current_season_only := None |}.

(** What [genres_include] asks of a record: nothing when the list is
    missing or empty, else every requested genre under "and" and one of
    them under "or", which is the default. *)
Definition requested_genres_found {L : LowerCasing} (n : FilterableNode)
    (wanted : option (list string)) (mode : option GenreMode) : Prop :=
  JS.nonempty wanted = true ->
  match mode ?? ModeOr with
  | ModeAnd => forall w, In w (wanted ?? []) -> has_genre n w
  | ModeOr => exists w, In w (wanted ?? []) /\ has_genre n w
  end.

(** What [genres_exclude] asks of a record: none of the listed genres. *)
Definition excluded_genres_absent {L : LowerCasing} (n : FilterableNode)
    (excluded : option (list string)) : Prop :=
  forall e, In e (excluded ?? []) -> ~ has_genre n e.

(** Field-for-field identical filter objects. *)
Definition same_fields (f1 f2 : FilterParams) : Prop :=
  Params.genres_include f1 = Params.genres_include f2
  /\ Params.genres_exclude f1 = Params.genres_exclude f2
  /\ Params.genre_mode f1 = Params.genre_mode f2
  /\ Params.min_score f1 = Params.min_score f2
  /\ Params.min_members f1 = Params.min_members f2
  /\ Params.media_type f1 = Params.media_type f2
  /\ Params.status f1 = Params.status f2
  /\ Params.source f1 = Params.source f2
  /\ Params.current_season_only f1 = Params.current_season_only f2.

(** An array-valued field that is missing or empty. *)
Definition unset_or_empty (a : option (list string)) : Prop :=
  a = None \/ a = Some [].

(** No field other than the modifier [genre_mode] is set to a non-empty,
    non-false value. *)
Definition inactive_spec (f : FilterParams) : Prop :=
  unset_or_empty (Params.genres_include f)
  /\ unset_or_empty (Params.genres_exclude f)
  /\ Params.min_score f = None
  /\ Params.min_members f = None
  /\ unset_or_empty (Params.media_type f)
  /\ Params.status f = None
  /\ unset_or_empty (Params.source f)
  /\ (Params.current_season_only f = None
      \/ Params.current_season_only f = Some false).

(** *** The description, as the specification words it *)

Inductive Field :=
| GenresInclude
| GenresExclude
| MinScore
| MinMembers
| MediaType
| Status
| Source
| CurrentSeasonOnly.

(** The fixed canonical order of the rendered fields. *)
Definition canonical_order : list Field :=
  [GenresInclude; GenresExclude; MinScore; MinMembers;
   MediaType; Status; Source; CurrentSeasonOnly].

Definition upper_mode (m : GenreMode) : string :=
  match m with
  | ModeOr => "OR"
  | ModeAnd => "AND"
  end.

(** The rendering of one field, [None] when the field has no active
    value. *)
Definition rendering (number_toString : Q -> string) (f : FilterParams)
    (fld : Field) : option string :=
  match fld with
  | GenresInclude =>
      match Params.genres_include f with
      | Some (g :: gs) =>
          Some ("genres(" ++ upper_mode (Params.genre_mode f ?? ModeOr) ++ ")="
                ++ JS.join "," (g :: gs))
      | _ => None
      end
  | GenresExclude =>
      match Params.genres_exclude f with
      | Some (g :: gs) => Some ("exclude_genres=" ++ JS.join "," (g :: gs))
      | _ => None
      end
  | MinScore =>
      match Params.min_score f with
      | Some s => Some ("min_score>=" ++ number_toString s)
      | None => None
      end
  | MinMembers =>
      match Params.min_members f with
      | Some n => Some ("min_members>=" ++ number_toString (inject_Z n))
      | None => None
      end
  | MediaType =>
      match Params.media_type f with
      | Some (m :: ms) => Some ("media_type=" ++ JS.join "," (m :: ms))
      | _ => None
      end
  | Status =>
      match Params.status f with
      | Some (String c s) => Some ("status=" ++ String c s)
      | _ => None
      end
  | Source =>
      match Params.source f with
      | Some (s :: ss) => Some ("source=" ++ JS.join "," (s :: ss))
      | _ => None
      end
  | CurrentSeasonOnly =>
      match Params.current_season_only f with
      | Some true => Some "current_season_only"
      | _ => None
      end
  end.

(** Every field in canonical order, the ones without a rendering left
    out. *)
Definition describe_spec (number_toString : Q -> string) (f : FilterParams)
    : list string :=
  flat_map
    (fun fld =>
       match rendering number_toString f fld with
       | Some s => [s]
       | None => []
       end)
    canonical_order.

(** ** Concrete data *)

Module Examples.

(** The concrete calls hold ASCII strings only, on which the conversion
    of the engine is [JS.ascii_toLowerCase]. *)
#[export] Instance ascii_strings : LowerCasing := JS.ascii_toLowerCase.

(** An item of a ranking list: a record under [node], and its rank. *)
Record RankingItem := {
  item_node : FilterableNode;
  rank : Z
}.

Definition bare : FilterableNode :=
  {| Node.genres := None;
     Node.mean := None;
     Node.media_type := None;
     Node.status := None;
     Node.num_list_users := None;
     Node.source := None;
     Node.start_season := None |}.

Definition scored (q : Q) : FilterableNode :=
  {| Node.genres := None;
     Node.mean := Some q;
     Node.media_type := None;
     Node.status := None;
     Node.num_list_users := None;
     Node.source := None;
     Node.start_season := None |}.

Definition tagged (gs : list string) : FilterableNode :=
  {| Node.genres := Some (map Build_Genre gs);
     Node.mean := None;
     Node.media_type := None;
     Node.status := None;
     Node.num_list_users := None;
     Node.source := None;
     Node.start_season := None |}.

Definition premiered (y : Z) (s : string) : FilterableNode :=
  with_start_season (Some {| year := y; season := s |}) bare.

(** The filter object of a call that names no filter: the schemas fill in
    [genre_mode] and [current_season_only]. *)
Definition defaults : FilterParams :=
  {| Params.genres_include := None;
     Params.genres_exclude := None;
     Params.genre_mode := Some ModeOr;
     Params.min_score := None;
     Params.min_members := None;
     Params.media_type := None;
     Params.status := None;
     Params.source := None;
     Params.current_season_only := Some false |}.

Definition min_score_only (q : Q) : FilterParams :=
  {| Params.genres_include := None;
     Params.genres_exclude := None;
     Params.genre_mode := Some ModeOr;
     Params.min_score := Some q;
     Params.min_members := None;
     Params.media_type := None;
     Params.status := None;
     Params.source := None;
     Params.current_season_only := None |}.

Definition genres_only (gs : list string) (m : GenreMode) : FilterParams :=
  {| Params.genres_include := Some gs;
     Params.genres_exclude := None;
     Params.genre_mode := Some m;
     Params.min_score := None;
     Params.min_members := None;
     Params.media_type := None;
     Params.status := None;
     Params.source := None;
     Params.current_season_only := None |}.

Definition everything : FilterParams :=
  {| Params.genres_include := Some ["Action"; "Romance"];
     Params.genres_exclude := Some ["Horror"];
     Params.genre_mode := Some ModeAnd;
     Params.min_score := Some 8%Q;
     Params.min_members := Some 5000;
     Params.media_type := Some ["tv"; "movie"];
     Params.status := Some "finished_airing";
     Params.source := Some ["manga"];
     Params.current_season_only := Some true |}.

Definition summer_2024 : SeasonContext :=
  {| queriedYear := 2024; queriedSeason := "summer" |}.

(** Renders integral scores; the examples use integral thresholds only. *)
Definition integral_toString (q : Q) : string :=
  integer_toString (Qfloor q).

(** Items ranked 1 to [n]; every eighth one scores 9, the others 5. *)
Definition ranked (n : nat) : list RankingItem :=
  map
    (fun k =>
       {| item_node := scored (if Z.of_nat k mod 8 =? 0 then 9%Q else 5%Q);
          rank := Z.of_nat k |})
    (seq 1 n).

Definition link : string :=
  "https://api.myanimelist.net/v2/anime/ranking?offset=100".

(** The remote state counts the requests served. A page, and a remote
    that answers every request with it, whatever the page size asked
    for. *)
Definition page (window : list RankingItem) (next_link : option string)
    : MalListResponse RankingItem :=
  {| data := window; paging := {| previous := None; next := next_link |} |}.

Definition serves (window : list RankingItem) (next_link : option string)
    : Z -> Z -> nat -> (string + MalListResponse RankingItem) * nat :=
  fun _ _ served => (inr (page window next_link), S served).

(** A remote that respects the page size and offset over a catalog. *)
Definition pages (catalog : list RankingItem)
    : Z -> Z -> nat -> (string + MalListResponse RankingItem) * nat :=
  fun limit offset served =>
    let rest := skipn (Z.to_nat offset) catalog in
    (inr (page (firstn (Z.to_nat limit) rest)
            (if limit <? JS.len rest then Some link else None)),
     S served).

(** A remote that rejects every request. *)
Definition fails (reason : string)
    : Z -> Z -> nat -> (string + MalListResponse RankingItem) * nat :=
  fun _ _ served => (inl reason, S served).

Definition call (remote : Z -> Z -> nat -> (string + MalListResponse RankingItem) * nat)
    (f : FilterParams) (limit offset : Z) : Options RankingItem :=
  {| fetchPage := remote;
     filters := f;
     requestedLimit := limit;
     initialOffset := offset;
     seasonContext := None |}.

Definition run (options : Options RankingItem)
    : (string + Fetched (T := RankingItem)) * (nat * list (Z * Z)) :=
  filteredFetch item_node integral_toString options (0%nat, []).

(** No filter, 10 records from offset 0 of a catalog of 250. *)
Definition scenario_A : Options RankingItem :=
  call (pages (ranked 250)) defaults 10 0.

(** [min_score] 8, limit 5, a full page of 100 of which 12 score 9. *)
Definition scenario_B : Options RankingItem :=
  call (serves (ranked 100) (Some link)) (min_score_only 8) 5 0.

(** As [scenario_B], the remote exhausted after 40 records and still
    giving a continuation link. *)
Definition scenario_C : Options RankingItem :=
  call (serves (ranked 40) (Some link)) (min_score_only 8) 5 0.

(** As [scenario_B] from offset 20. *)
Definition scenario_B_at_20 : Options RankingItem :=
  call (serves (ranked 100) (Some link)) (min_score_only 8) 5 20.

(** A remote that answers the request for 100 records with 101. *)
Definition overlong_page : Options RankingItem :=
  call (serves (ranked 101) (Some link)) (min_score_only 8) 5 0.

(** A remote that answers the request for 2 records with 3, no filter. *)
Definition overlong_unfiltered : Options RankingItem :=
  call (serves (ranked 3) None) defaults 2 0.

(** A remote that is down. *)
Definition remote_down : Options RankingItem :=
  call (fails "503 Service Unavailable") (min_score_only 8) 5 0.

End Examples.

(** ** Vocabulary of the further properties *)

(** Functional updates of the thresholds and of the limit of a call. *)
Definition with_min_score (q : option Q) (f : FilterParams) : FilterParams :=
  {| Params.genres_include := Params.genres_include f;
     Params.genres_exclude := Params.genres_exclude f;
     Params.genre_mode := Params.genre_mode f;
     Params.min_score := q;
     Params.min_members := Params.min_members f;
     Params.media_type := Params.media_type f;
     Params.status := Params.status f;
     Params.source := Params.source f;
     Params.current_season_only := Params.current_season_only f |}.

Definition with_min_members (n : option Z) (f : FilterParams) : FilterParams :=
  {| Params.genres_include := Params.genres_include f;
     Params.genres_exclude := Params.genres_exclude f;
     Params.genre_mode := Params.genre_mode f;
     Params.min_score := Params.min_score f;
     Params.min_members := n;
     Params.media_type := Params.media_type f;
     Params.status := Params.status f;
     Params.source := Params.source f;
     Params.current_season_only := Params.current_season_only f |}.

Definition with_requestedLimit {T E W} (limit : Z)
    (options : Options T (E := E) (W := W)) : Options T (E := E) (W := W) :=
  {| fetchPage := fetchPage options;
     filters := filters options;
     requestedLimit := limit;
     initialOffset := initialOffset options;
     seasonContext := seasonContext options |}.

(** The loop of [pickFilters], from any state [result] of the object it
    builds. *)
Definition picked_from (args : Obj.t) (filterKeys : list string)
    (result : Obj.t) : Obj.t :=
  fold_left
    (fun result key =>
       if defined (Obj.get args key)
       then Obj.set result key (Obj.get args key)
       else result)
    filterKeys result.

(** What a record must satisfy to pass a filter object, check by
    check. *)
Definition satisfies {L : LowerCasing} (n : FilterableNode) (f : FilterParams)
    (ctx : option SeasonContext) : Prop :=
  (JS.nonempty (Params.genres_include f) = true ->
   match Params.genre_mode f ?? ModeOr with
   | ModeAnd => forall w, In w (Params.genres_include f ?? []) -> has_genre n w
   | ModeOr => exists w, In w (Params.genres_include f ?? []) /\ has_genre n w
   end)
  /\ (forall e, In e (Params.genres_exclude f ?? []) -> ~ has_genre n e)
  /\ (forall q,
         Params.min_score f = Some q ->
         exists m, Node.mean n = Some m /\ (q <= m)%Q)
  /\ (forall k,
         Params.min_members f = Some k -> k <= Node.num_list_users n ?? 0)
  /\ (JS.nonempty (Params.media_type f) = true ->
      exists mt,
        Node.media_type n = Some mt /\ mt <> ""
        /\ In mt (Params.media_type f ?? []))
  /\ (forall s,
         Params.status f = Some s -> s <> "" -> Node.status n = Some s)
  /\ (JS.nonempty (Params.source f) = true ->
      exists src,
        Node.source n = Some src /\ src <> ""
        /\ In src (Params.source f ?? []))
  /\ (Params.current_season_only f = Some true ->
      forall c,
        ctx = Some c ->
        exists ss,
          Node.start_season n = Some ss
          /\ year ss = queriedYear c /\ season ss = queriedSeason c).

(** [f] asks for no more than [f']: each of its fields is unset or empty,
    or is the one of [f'] (with the same mode, for the requested
    genres). *)
Definition relaxes (f f' : FilterParams) : Prop :=
  (JS.nonempty (Params.genres_include f) = false
   \/ (Params.genres_include f = Params.genres_include f'
       /\ Params.genre_mode f ?? ModeOr = Params.genre_mode f' ?? ModeOr))
  /\ (JS.nonempty (Params.genres_exclude f) = false
      \/ Params.genres_exclude f = Params.genres_exclude f')
  /\ (Params.min_score f = None \/ Params.min_score f = Params.min_score f')
  /\ (Params.min_members f = None
      \/ Params.min_members f = Params.min_members f')
  /\ (JS.nonempty (Params.media_type f) = false
      \/ Params.media_type f = Params.media_type f')
  /\ (JS.truthy_string (Params.status f) = false
      \/ Params.status f = Params.status f')
  /\ (JS.nonempty (Params.source f) = false
      \/ Params.source f = Params.source f')
  /\ (JS.truthy_bool (Params.current_season_only f) = false
      \/ Params.current_season_only f = Params.current_season_only f').

(** Lists with the same members, order and repetitions apart. *)
Definition same_members {A} (l1 l2 : list A) : Prop :=
  forall x, In x l1 <-> In x l2.

(** Records that agree except for the order and the repetitions of
    their genres. *)
Definition node_regrouped (n1 n2 : FilterableNode) : Prop :=
  same_members (genre_names n1 ?? []) (genre_names n2 ?? [])
  /\ Node.mean n1 = Node.mean n2
  /\ Node.media_type n1 = Node.media_type n2
  /\ Node.status n1 = Node.status n2
  /\ Node.num_list_users n1 = Node.num_list_users n2
  /\ Node.source n1 = Node.source n2
  /\ Node.start_season n1 = Node.start_season n2.

(** Filter objects that agree except for the order and the repetitions
    of the requested and of the excluded genres. *)
Definition params_regrouped (f1 f2 : FilterParams) : Prop :=
  same_members (Params.genres_include f1 ?? []) (Params.genres_include f2 ?? [])
  /\ same_members (Params.genres_exclude f1 ?? [])
       (Params.genres_exclude f2 ?? [])
  /\ Params.genre_mode f1 ?? ModeOr = Params.genre_mode f2 ?? ModeOr
  /\ Params.min_score f1 = Params.min_score f2
  /\ Params.min_members f1 = Params.min_members f2
  /\ Params.media_type f1 = Params.media_type f2
  /\ Params.status f1 = Params.status f2
  /\ Params.source f1 = Params.source f2
  /\ Params.current_season_only f1 = Params.current_season_only f2.

(** The record premiered in the queried season. *)
Definition premiered_in (n : FilterableNode) (c : SeasonContext) : bool :=
  match Node.start_season n with
  | Some ss =>
      (year ss =? queriedYear c) && String.eqb (season ss) (queriedSeason c)
  | None => false
  end.

(** [l1] is [l2] with some elements left out, the order kept. *)
Inductive subsequence {A} : list A -> list A -> Prop :=
| subsequence_nil : subsequence [] []
| subsequence_skip x l1 l2 : subsequence l1 l2 -> subsequence l1 (x :: l2)
| subsequence_keep x l1 l2 : subsequence l1 l2 -> subsequence (x :: l1) (x :: l2).

(** What a call reports about the scan of the page. *)
Definition scan_report {T} (r : Fetched (T := T))
    : Z * Z * bool * option Z * list string :=
  (totalScanned (meta r), pagesScanned (meta r), hasMorePages (meta r),
   nextOffset (meta r), activeFilters (meta r)).

(** The character [c] occurs in [s]. *)
Fixpoint occurs (c : ascii) (s : string) : bool :=
  match s with
  | EmptyString => false
  | String c' s' => Ascii.eqb c c' || occurs c s'
  end.

(** ** Further concrete data *)

Module MoreExamples.

(** The arguments of a tool call after the schemas: the filter keys
    given, the defaults filled in, and a key that is no filter. *)
Definition action_args : Obj.t :=
  [("genres_include", VArray ["Action"]);
   ("genre_mode", VString "or");
   ("min_score", VNumber 8%Q);
   ("sort", VString "anime_score");
   ("current_season_only", VBoolean false)].

Definition plain_args : Obj.t :=
  [("genre_mode", VString "or");
   ("current_season_only", VBoolean false)].

(** A record that passes every check of [Examples.everything] in summer
    2024. *)
Definition summer_hit : FilterableNode :=
  {| Node.genres := Some [{| name := "Romance" |}; {| name := "Action" |}];
     Node.mean := Some 9%Q;
     Node.media_type := Some "tv";
     Node.status := Some "finished_airing";
     Node.num_list_users := Some 6000;
     Node.source := Some "manga";
     Node.start_season := Some {| year := 2024; season := "summer" |} |}.

Definition frieren : Anime.t :=
  {| Anime.id := 52991;
     Anime.title := "Sousou no Frieren";
     Anime.mean := Some (9.25)%Q;
     Anime.media_type := Some "tv";
     Anime.status := Some "finished_airing";
     Anime.num_list_users := Some 1200000;
     Anime.genres := Some [{| name := "Adventure" |}; {| name := "Fantasy" |}];
     Anime.num_episodes := Some 28;
     Anime.start_season := Some {| year := 2023; season := "fall" |};
     Anime.source := Some "manga";
     Anime.studios := Some [{| Studio.id := 11; Studio.name := "Madhouse" |}] |}.

Definition unrated : Anime.t :=
  {| Anime.id := 7;
     Anime.title := "Untitled";
     Anime.mean := None;
     Anime.media_type := None;
     Anime.status := None;
     Anime.num_list_users := None;
     Anime.genres := None;
     Anime.num_episodes := None;
     Anime.start_season := None;
     Anime.source := None;
     Anime.studios := None |}.

Definition anime_page (next_link : option string)
    : MalListResponse AnimeListItem.t :=
  {| data := [{| AnimeListItem.node := frieren |};
              {| AnimeListItem.node := unrated |}];
     paging := {| previous := None; next := next_link |} |}.

(** A client whose search answers with [anime_page], and one whose
    request fails with the error of [client.ts]. *)
Definition search_ok (next_link : option string)
    : string -> Z -> Z -> bool -> nat ->
      (Thrown + MalListResponse AnimeListItem.t) * nat :=
  fun _ _ _ _ served => (inr (anime_page next_link), S served).

Definition search_fails
    : string -> Z -> Z -> bool -> nat ->
      (Thrown + MalListResponse AnimeListItem.t) * nat :=
  fun _ _ _ _ served =>
    (inl (ErrorObject "MAL API error 503 Service Unavailable: down"), S served).

End MoreExamples.

(** * Properties *)

(** ** Letter case *)

Lemma lower_upper_ascii (c : ascii) :
  JS.lower_ascii (JS.upper_ascii c) = JS.lower_ascii c.
Proof.
  destruct c as [[] [] [] [] [] [] [] []]; reflexivity.
Qed.

Lemma lower_lower_ascii (c : ascii) :
  JS.lower_ascii (JS.lower_ascii c) = JS.lower_ascii c.
Proof.
  destruct c as [[] [] [] [] [] [] [] []]; reflexivity.
Qed.

Lemma toLowerCase_toUpperCase (s : string) :
  JS.ascii_toLowerCase (JS.toUpperCase s) = JS.ascii_toLowerCase s.
Proof.
  unfold JS.ascii_toLowerCase, JS.toUpperCase.
  induction s as [|c s IH]; simpl.
  - reflexivity.
  - now rewrite lower_upper_ascii, IH.
Qed.

Lemma toLowerCase_idempotent (s : string) :
  JS.ascii_toLowerCase (JS.ascii_toLowerCase s) = JS.ascii_toLowerCase s.
Proof.
  unfold JS.ascii_toLowerCase.
  induction s as [|c s IH]; simpl.
  - reflexivity.
  - now rewrite lower_lower_ascii, IH.
Qed.

(** On ASCII names, upper-casing and lower-casing yield case variants. *)
Lemma case_variant_toUpperCase (s : string) :
  case_variant (L := JS.ascii_toLowerCase) (JS.toUpperCase s) s.
Proof. apply toLowerCase_toUpperCase. Qed.

Lemma case_variant_toLowerCase (s : string) :
  case_variant (L := JS.ascii_toLowerCase) (JS.ascii_toLowerCase s) s.
Proof. apply toLowerCase_idempotent. Qed.

Lemma In_all_ascii (c : ascii) : In c all_ascii.
Proof.
  unfold all_ascii. rewrite <- (ascii_nat_embedding c).
  apply in_map, in_seq. pose proof (nat_ascii_bounded c). lia.
Qed.

Lemma same_letter_lower_ascii (c1 c2 : ascii) :
  same_letter c1 c2 = Ascii.eqb (JS.lower_ascii c1) (JS.lower_ascii c2).
Proof.
  assert (H : forallb
                (fun c1 =>
                   forallb
                     (fun c2 =>
                        Bool.eqb (same_letter c1 c2)
                          (Ascii.eqb (JS.lower_ascii c1) (JS.lower_ascii c2)))
                     all_ascii)
                all_ascii = true)
    by (vm_compute; reflexivity).
  rewrite forallb_forall in H. specialize (H c1 (In_all_ascii c1)).
  rewrite forallb_forall in H. specialize (H c2 (In_all_ascii c2)).
  now apply Bool.eqb_prop in H.
Qed.

(** On ASCII strings, two names have the same lower-case form exactly
    when they are the same up to the case of their letters. *)
Lemma same_letters_iff_case_variant (s1 s2 : string) :
  same_letters s1 s2 = true
  <-> case_variant (L := JS.ascii_toLowerCase) s1 s2.
Proof.
  unfold case_variant, toLowerCase, JS.ascii_toLowerCase.
  revert s2. induction s1 as [|c1 s1 IH]; intros [|c2 s2]; simpl;
    try (split; [reflexivity || discriminate | reflexivity || discriminate]).
  rewrite andb_true_iff, same_letter_lower_ascii, Ascii.eqb_eq, IH.
  split.
  - intros [-> ->]. reflexivity.
  - intros H. inversion H. split; reflexivity.
Qed.

Lemma toUpperCase_mode (m : GenreMode) :
  JS.toUpperCase (mode_string m) = upper_mode m.
Proof.
  destruct m; reflexivity.
Qed.

Lemma Forall2_case_variant_map {L : LowerCasing} (l1 l2 : list string) :
  Forall2 case_variant l1 l2 ->
  map toLowerCase l1 = map toLowerCase l2.
Proof.
  induction 1 as [|s1 s2 l1 l2 Hs _ IH]; simpl.
  - reflexivity.
  - unfold case_variant in Hs. now rewrite Hs, IH.
Qed.

Lemma Forall2_len {A B} (R : A -> B -> Prop) (l1 : list A) (l2 : list B) :
  Forall2 R l1 l2 -> JS.len l1 = JS.len l2.
Proof.
  intros H. unfold JS.len. now rewrite (Forall2_length H).
Qed.

(** What the predicate reads of a requested genre list: whether it is
    non-empty, and the lower-cased names. *)
Lemma recased_view {L : LowerCasing} (a1 a2 : option (list string)) :
  recased a1 a2 ->
  JS.nonempty a1 = JS.nonempty a2
  /\ map toLowerCase (a1 ?? []) = map toLowerCase (a2 ?? []).
Proof.
  destruct a1 as [l1|], a2 as [l2|]; simpl; try tauto.
  intros H. split.
  - now rewrite (Forall2_len _ _ _ H).
  - now apply Forall2_case_variant_map.
Qed.

(** What the predicate reads of the genres of a record. *)
Lemma genre_names_view {L : LowerCasing} (n1 n2 : FilterableNode) :
  recased (genre_names n1) (genre_names n2) ->
  map (fun g => toLowerCase (name g)) (Node.genres n1 ?? [])
  = map (fun g => toLowerCase (name g)) (Node.genres n2 ?? []).
Proof.
  intros H. apply recased_view in H. destruct H as [_ H].
  unfold genre_names in H.
  destruct (Node.genres n1) as [g1|], (Node.genres n2) as [g2|]; simpl in *;
    rewrite ?map_map in H; exact H.
Qed.

(** ** The genre-include check *)

Lemma forallb_existsb_nonempty {A} (p : A -> bool) (l : list A) :
  l <> [] -> forallb p l = true -> existsb p l = true.
Proof.
  destruct l as [|x l]; [congruence|]. simpl. intros _ H.
  apply andb_true_iff in H. destruct H as [H _]. now rewrite H.
Qed.

Lemma nonempty_cons {A} (a : option (list A)) :
  JS.nonempty a = true -> exists x l, a = Some (x :: l).
Proof.
  destruct a as [[|x l]|]; cbv [JS.nonempty JS.len]; simpl; try discriminate.
  intros _. now exists x, l.
Qed.

Lemma nonempty_false {A} (a : option (list A)) :
  JS.nonempty a = false <-> a = None \/ a = Some [].
Proof.
  destruct a as [[|x l]|]; cbv [JS.nonempty JS.len]; simpl;
    split; intros H; auto; try discriminate.
  destruct H; discriminate.
Qed.

(** ** The predicate evaluator *)

(** C6. For every record, every filter object and every season context, a
    record that matches with [genre_mode = "and"] also matches with
    [genre_mode = "or"] (and with the mode left out, which defaults to
    "or"), all other fields being the same: the records matched under
    "and" are among those matched under "or". *)
Theorem and_mode_matches_are_or_mode_matches {L : LowerCasing} :
  forall (node : FilterableNode) (f : FilterParams) (ctx : option SeasonContext),
    matchesFilters node (with_genre_mode (Some ModeAnd) f) ctx = true ->
    matchesFilters node (with_genre_mode (Some ModeOr) f) ctx = true
    /\ matchesFilters node (with_genre_mode None f) ctx = true.
Proof.
  intros node f ctx.
  unfold matchesFilters, with_genre_mode; simpl.
  destruct (JS.nonempty (Params.genres_include f)) eqn:Hne.
  - destruct (nonempty_cons _ Hne) as (g & gs & Hgi). rewrite Hgi. simpl map.
    set (p := fun w => JS.includes _ w).
    set (wanted := toLowerCase g :: map toLowerCase gs).
    assert (Hex : forallb p wanted = true -> existsb p wanted = true)
      by (apply forallb_existsb_nonempty; discriminate).
    destruct (forallb p wanted); cbn [negb].
    + rewrite Hex by reflexivity. cbn [negb]. intros H. split; exact H.
    + intros H. discriminate H.
  - intros H. split; exact H.
Qed.

(** C10. With [current_season_only] set and no season context supplied,
    the current-season check is skipped: the result is the one obtained
    with any other value of the flag, and it does not depend on the
    premiere season of the record, present or missing. Whenever the flag
    turns a match into a rejection, a season context is present and the
    record has no premiere season or one that differs from it. *)
Theorem season_check_needs_season_context {L : LowerCasing} :
  forall (node : FilterableNode) (f : FilterParams),
    (forall b,
        matchesFilters node (with_current_season_only (Some true) f) None
        = matchesFilters node (with_current_season_only b f) None)
    /\ (forall s,
           matchesFilters (with_start_season s node)
             (with_current_season_only (Some true) f) None
           = matchesFilters node (with_current_season_only (Some true) f) None)
    /\ (forall ctx,
           matchesFilters node (with_current_season_only (Some false) f) ctx = true ->
           matchesFilters node (with_current_season_only (Some true) f) ctx = false ->
           exists c,
             ctx = Some c
             /\ forall ss,
                  Node.start_season node = Some ss ->
                  year ss <> queriedYear c \/ season ss <> queriedSeason c).
Proof.
  intros node f. split; [|split].
  - intros b. unfold matchesFilters, with_current_season_only; simpl.
    destruct (JS.truthy_bool b); reflexivity.
  - intros s. reflexivity.
  - intros ctx. unfold matchesFilters, with_current_season_only; simpl.
    repeat match goal with
           | |- (if ?c then false else _) = true -> _ =>
               destruct c; [discriminate|]
           end.
    intros _.
    destruct ctx as [c|]; [|discriminate].
    intros H. exists c. split; [reflexivity|].
    intros ss Hss. rewrite Hss in H.
    destruct (year ss =? queriedYear c) eqn:Hy.
    + destruct (String.eqb (season ss) (queriedSeason c)) eqn:Hs;
        [discriminate|].
      right. now apply String.eqb_neq.
    + left. now apply Z.eqb_neq.
Qed.

(** ** Activity of a filter object *)

Lemma active_array_entry (key : string) (a : option (list string)) :
  existsb (String.eqb key) MODIFIER_KEYS = false ->
  existsb active_entry (entry key VArray a) = false <-> unset_or_empty a.
Proof.
  intros Hk. unfold unset_or_empty, entry.
  destruct a as [[|x l]|]; cbn [existsb active_entry]; rewrite ?Hk; simpl.
  - split; auto.
  - split; [discriminate|]. intros [H|H]; discriminate H.
  - split; auto.
Qed.

Lemma active_set_entry {A} (key : string) (inj : A -> Value) (v : option A) :
  existsb (String.eqb key) MODIFIER_KEYS = false ->
  (forall x, match inj x with
             | VNumber _ | VString _ => True
             | _ => False
             end) ->
  existsb active_entry (entry key inj v) = false <-> v = None.
Proof.
  intros Hk Hinj. unfold entry.
  destruct v as [x|]; cbn [existsb active_entry]; rewrite ?Hk.
  - specialize (Hinj x).
    destruct (inj x); try contradiction; simpl; split; discriminate.
  - tauto.
Qed.

Lemma active_boolean_entry (key : string) (b : option bool) :
  existsb (String.eqb key) MODIFIER_KEYS = false ->
  existsb active_entry (entry key VBoolean b) = false
  <-> b = None \/ b = Some false.
Proof.
  intros Hk. unfold entry.
  destruct b as [[|]|]; cbn [existsb active_entry]; rewrite ?Hk; simpl.
  - split; [discriminate|]. intros [H|H]; discriminate H.
  - split; auto.
  - split; auto.
Qed.

Lemma modifier_entry {A} (inj : A -> Value) (v : option A) :
  existsb active_entry (entry "genre_mode" inj v) = false.
Proof.
  destruct v; reflexivity.
Qed.

(** [hasActiveFilters] is false exactly on the filter objects none of
    whose fields, [genre_mode] apart, is set to a non-empty, non-false
    value. *)
Lemma hasActiveFilters_false_iff (f : FilterParams) :
  hasActiveFilters f = false <-> inactive_spec f.
Proof.
  unfold hasActiveFilters, entries, inactive_spec.
  rewrite !existsb_app, !orb_false_iff.
  rewrite !active_array_entry by reflexivity.
  rewrite active_boolean_entry by reflexivity.
  rewrite (active_set_entry "min_score"), (active_set_entry "min_members"),
    (active_set_entry "status") by (reflexivity || (intros; exact I)).
  pose proof (modifier_entry (fun m => VString (mode_string m))
                (Params.genre_mode f)) as Hm.
  tauto.
Qed.

(** ** The description builder *)

Lemma same_fields_eq (f1 f2 : FilterParams) : same_fields f1 f2 -> f1 = f2.
Proof.
  destruct f1, f2; unfold same_fields; simpl.
  intros (-> & -> & -> & -> & -> & -> & -> & -> & ->). reflexivity.
Qed.

Lemma push_if_nonempty (a : option (list string)) (s : string)
    (parts : list string) :
  push_if (JS.nonempty a) s parts
  = (parts ++ match a with
              | Some (_ :: _) => [s]
              | _ => []
              end)%list.
Proof.
  destruct a as [[|x l]|]; cbv [push_if push JS.nonempty JS.len]; simpl;
    now rewrite ?app_nil_r.
Qed.

(** C8. The description builder is a function of the fields of the filter
    object alone: field-for-field identical filter objects give the same
    ordered list of strings. The list holds the renderings of the active
    fields in the canonical order genre-include (with the mode in upper
    case), genre-exclude, min-score, min-members, media-type, status,
    source and the season-only marker, and nothing for a field without an
    active value. *)
Theorem descriptions_deterministic_in_canonical_order :
  forall (number_toString : Q -> string) (f1 f2 : FilterParams),
    buildActiveFilterDescriptions number_toString f1
    = describe_spec number_toString f1
    /\ (same_fields f1 f2 ->
        buildActiveFilterDescriptions number_toString f1
        = buildActiveFilterDescriptions number_toString f2).
Proof.
  intros number_toString f1 f2. split.
  - unfold buildActiveFilterDescriptions, describe_spec, canonical_order, rendering.
    rewrite !push_if_nonempty. cbn [flat_map].
    rewrite toUpperCase_mode.
    destruct (Params.genres_include f1) as [[|? ?]|];
      destruct (Params.genres_exclude f1) as [[|? ?]|];
      destruct (Params.min_score f1);
      destruct (Params.min_members f1);
      destruct (Params.media_type f1) as [[|? ?]|];
      destruct (Params.status f1) as [[|? ?]|];
      destruct (Params.source f1) as [[|? ?]|];
      destruct (Params.current_season_only f1) as [[|]|];
      reflexivity.
  - intros H. now rewrite (same_fields_eq _ _ H).
Qed.

(** ** The scan loop and the final slice *)

Lemma len_app {A} (l1 l2 : list A) : JS.len (l1 ++ l2) = JS.len l1 + JS.len l2.
Proof.
  unfold JS.len. rewrite length_app. lia.
Qed.

Lemma len_nonneg {A} (l : list A) : 0 <= JS.len l.
Proof.
  unfold JS.len. lia.
Qed.

Lemma len_firstn {A} (n : nat) (l : list A) :
  JS.len (firstn n l) = Z.min (Z.of_nat n) (JS.len l).
Proof.
  unfold JS.len. rewrite length_firstn. lia.
Qed.

Lemma len_filter_le {A} (p : A -> bool) (l : list A) :
  JS.len (filter p l) <= JS.len l.
Proof.
  unfold JS.len. pose proof (filter_length_le p l). lia.
Qed.

Lemma firstn_firstn_min {A} (n m : nat) (l : list A) :
  firstn n (firstn m l) = firstn (Nat.min n m) l.
Proof.
  apply firstn_firstn.
Qed.

Section Scan.

Context {L : LowerCasing}.
Context {T : Type}.
Variable node : T -> FilterableNode.
Variable filters : FilterParams.
Variable requestedLimit : Z.
Variable seasonContext : option SeasonContext.

Local Abbreviation matches :=
  (fun item : T => matchesFilters (node item) filters seasonContext).

(** While the accumulator is below the limit, the loop appends the
    matches of the rest of the window up to the limit. *)
Lemma scan_below_limit (window matched : list T) :
  JS.len matched < requestedLimit ->
  scan node filters requestedLimit seasonContext window matched
  = (matched
     ++ firstn (Z.to_nat (requestedLimit - JS.len matched))
          (filter matches window))%list.
Proof.
  revert matched.
  induction window as [|item window IH]; intros matched Hlt; simpl.
  - now rewrite firstn_nil, app_nil_r.
  - destruct (matchesFilters (node item) filters seasonContext) eqn:Hm.
    + unfold push. rewrite len_app. change (JS.len [item]) with 1.
      replace (Z.to_nat (requestedLimit - JS.len matched))
        with (S (Z.to_nat (requestedLimit - (JS.len matched + 1)))) by lia.
      rewrite firstn_cons.
      destruct (requestedLimit <=? JS.len matched + 1) eqn:Hle.
      * apply Z.leb_le in Hle.
        replace (Z.to_nat (requestedLimit - (JS.len matched + 1))) with 0%nat by lia.
        reflexivity.
      * apply Z.leb_gt in Hle.
        rewrite IH by (rewrite len_app; change (JS.len [item]) with 1; lia).
        rewrite len_app. change (JS.len [item]) with 1.
        now rewrite <- app_assoc.
    + now apply IH.
Qed.

(** From the empty accumulator, the loop returns the first matches of the
    window: as many as the limit, and one when the limit is below one
    (the limit is tested only after a match has been pushed). *)
Lemma scan_from_empty (window : list T) :
  scan node filters requestedLimit seasonContext window []
  = firstn (Z.to_nat (Z.max 1 requestedLimit)) (filter matches window).
Proof.
  destruct (Z.lt_ge_cases 0 requestedLimit) as [Hpos|Hnonpos].
  - rewrite scan_below_limit by (change (JS.len (@nil T)) with 0; lia).
    change (JS.len (@nil T)) with 0. simpl.
    f_equal. lia.
  - replace (Z.to_nat (Z.max 1 requestedLimit)) with 1%nat by lia.
    induction window as [|item window IH]; simpl.
    + reflexivity.
    + destruct (matchesFilters (node item) filters seasonContext).
      * change (JS.len (push [] item)) with 1.
        destruct (requestedLimit <=? 1) eqn:Hle; [reflexivity|].
        apply Z.leb_gt in Hle. lia.
      * exact IH.
Qed.

(** The slice that follows the loop leaves at most the limit. *)
Lemma slice0_first_matches (l : list T) :
  JS.slice0 requestedLimit (firstn (Z.to_nat (Z.max 1 requestedLimit)) l)
  = firstn (Z.to_nat requestedLimit) l.
Proof.
  unfold JS.slice0. rewrite len_firstn.
  pose proof (len_nonneg l) as Hl.
  rewrite firstn_firstn_min.
  destruct (requestedLimit <? 0) eqn:Hneg.
  - apply Z.ltb_lt in Hneg.
    replace (Z.to_nat requestedLimit) with 0%nat by lia.
    replace (Z.to_nat _) with 0%nat by lia. reflexivity.
  - apply Z.ltb_ge in Hneg.
    destruct (Z.le_gt_cases requestedLimit (JS.len l)) as [Hle|Hgt].
    + f_equal. lia.
    + rewrite !firstn_all2; trivial; unfold JS.len in *; lia.
Qed.

End Scan.

(** ** The orchestrator *)

Section Orchestrator.

Context {L : LowerCasing}.
Context {T : Type}.
Variable node : T -> FilterableNode.
Variable number_toString : Q -> string.
Context {E W : Type}.

Implicit Types (options : Options T (E := E) (W := W)).
Implicit Types (resp : MalListResponse T) (w : W) (e : E).
Implicit Types (calls : list (Z * Z)).

(** A rejected fetch ends the call with the same reason, on either path,
    after that one request. *)
Lemma filteredFetch_rejected options w calls e w' :
  fetchPage options (pageSize options) (initialOffset options) w = (inl e, w') ->
  filteredFetch node number_toString options (w, calls)
  = (inl e, (w', push calls (pageSize options, initialOffset options))).
Proof.
  unfold filteredFetch, pageSize, bind, await_call.
  destruct (hasActiveFilters (filters options)); simpl; intros ->; reflexivity.
Qed.

(** The unfiltered path on a resolved fetch. *)
Lemma filteredFetch_unfiltered options w calls resp w' :
  hasActiveFilters (filters options) = false ->
  fetchPage options (requestedLimit options) (initialOffset options) w
  = (inr resp, w') ->
  filteredFetch node number_toString options (w, calls)
  = (inr {| items := data resp;
            meta := {| totalScanned := JS.len (data resp);
                       totalMatched := JS.len (data resp);
                       pagesScanned := 1;
                       activeFilters := [];
                       hasMorePages := JS.truthy_string (next (paging resp));
                       nextOffset := None |} |},
     (w', push calls (requestedLimit options, initialOffset options))).
Proof.
  intros Hact Hfetch.
  unfold filteredFetch, bind, await_call. rewrite Hact. simpl.
  rewrite Hfetch. reflexivity.
Qed.

(** The filtered path on a resolved fetch, the loop and the slice
    replaced by what they compute. *)
Lemma filteredFetch_filtered options w calls resp w' :
  hasActiveFilters (filters options) = true ->
  fetchPage options FILTERED_PAGE_SIZE (initialOffset options) w
  = (inr resp, w') ->
  let hasMore :=
    JS.truthy_string (next (paging resp))
    && (FILTERED_PAGE_SIZE <=? JS.len (data resp)) in
  filteredFetch node number_toString options (w, calls)
  = (inr {| items :=
              firstn (Z.to_nat (requestedLimit options))
                (passing node options (data resp));
            meta := {| totalScanned := JS.len (data resp);
                       totalMatched :=
                         Z.min (Z.max 1 (requestedLimit options))
                           (JS.len (passing node options (data resp)));
                       pagesScanned := 1;
                       activeFilters :=
                         buildActiveFilterDescriptions number_toString
                           (filters options);
                       hasMorePages := hasMore;
                       nextOffset :=
                         if hasMore
                         then Some (initialOffset options + JS.len (data resp))
                         else None |} |},
     (w', push calls (FILTERED_PAGE_SIZE, initialOffset options))).
Proof.
  intros Hact Hfetch hasMore.
  unfold filteredFetch, bind, await_call. rewrite Hact. simpl.
  rewrite Hfetch. unfold ret.
  rewrite scan_from_empty, slice0_first_matches, len_firstn.
  unfold passing. subst hasMore.
  repeat f_equal. lia.
Qed.

(** The request a call makes, and nothing else, is logged, whatever the
    remote answers. *)
Lemma filteredFetch_calls_once options w calls :
  snd (snd (filteredFetch node number_toString options (w, calls)))
  = push calls (pageSize options, initialOffset options).
Proof.
  unfold filteredFetch, pageSize, bind, await_call.
  destruct (hasActiveFilters (filters options)); simpl;
    match goal with
    | |- context [fetchPage ?o ?l ?off ?w0] =>
        destruct (fetchPage o l off w0) as [[e|resp] w']
    end; reflexivity.
Qed.

End Orchestrator.

(** ** Pagination metadata *)

Section Pagination.

Context {L : LowerCasing}.
Context {T : Type}.
Variable node : T -> FilterableNode.
Variable number_toString : Q -> string.
Context {E W : Type}.

Implicit Types (options : Options T (E := E) (W := W)).
Implicit Types (resp : MalListResponse T) (w : W) (e : E).

Local Abbreviation run := (filteredFetch node number_toString).

(** C1. On the filtered path, for a fetched page that holds no more
    records than the [FILTERED_PAGE_SIZE] (100) asked for, [hasMorePages]
    is true if and only if [paging.next] of the page is truthy and the page
    holds exactly 100 records; in particular a page of fewer than 100
    records gives false whatever [paging.next] says. *)
Theorem hasMorePages_iff_next_and_full_page :
  forall options w resp w',
    hasActiveFilters (filters options) = true ->
    fetchPage options FILTERED_PAGE_SIZE (initialOffset options) w
    = (inr resp, w') ->
    JS.len (data resp) <= FILTERED_PAGE_SIZE ->
    exists r,
      fst (run options (w, [])) = inr r
      /\ (hasMorePages (meta r) = true
          <-> JS.truthy_string (next (paging resp)) = true
              /\ JS.len (data resp) = FILTERED_PAGE_SIZE)
      /\ (JS.len (data resp) < FILTERED_PAGE_SIZE ->
          hasMorePages (meta r) = false).
Proof.
  intros options w resp w' Hact Hfetch Hsize.
  eexists. split.
  - rewrite (filteredFetch_filtered node number_toString options w [] resp w' Hact Hfetch).
    reflexivity.
  - cbn [meta hasMorePages].
    rewrite andb_true_iff, Z.leb_le. split.
    + split; intros [Hnext Hfull]; split; trivial; lia.
    + intros Hlt. apply andb_false_iff. right. apply Z.leb_gt. exact Hlt.
Qed.

(** C2, amended. On the filtered path [nextOffset] is present if and
    only if [hasMorePages] is true, and when present it is
    [initialOffset + totalScanned], the number of records fetched; on the
    unfiltered path [nextOffset] is never present, also when
    [hasMorePages] is true. *)
Theorem nextOffset_resumes_after_fetched_page :
  forall options w resp w',
    fetchPage options (pageSize options) (initialOffset options) w
    = (inr resp, w') ->
    exists r,
      fst (run options (w, [])) = inr r
      /\ totalScanned (meta r) = JS.len (data resp)
      /\ (hasActiveFilters (filters options) = true ->
          (nextOffset (meta r) <> None <-> hasMorePages (meta r) = true)
          /\ forall n,
               nextOffset (meta r) = Some n ->
               n = initialOffset options + totalScanned (meta r))
      /\ (hasActiveFilters (filters options) = false ->
          nextOffset (meta r) = None
          /\ hasMorePages (meta r) = JS.truthy_string (next (paging resp))).
Proof.
  intros options w resp w'. unfold pageSize.
  destruct (hasActiveFilters (filters options)) eqn:Hact; intros Hfetch.
  - eexists. split.
    + rewrite (filteredFetch_filtered node number_toString options w [] resp w' Hact Hfetch).
      reflexivity.
    + cbn [meta hasMorePages nextOffset totalScanned].
      split; [reflexivity|]. split; [|discriminate]. intros _.
      destruct (JS.truthy_string (next (paging resp))
                && (FILTERED_PAGE_SIZE <=? JS.len (data resp))).
      * split; [split; [reflexivity|discriminate]|].
        intros n Hn. now inversion Hn.
      * split; [split; [congruence|discriminate]|].
        intros n Hn. discriminate Hn.
  - eexists. split.
    + rewrite (filteredFetch_unfiltered node number_toString options w [] resp w' Hact Hfetch).
      reflexivity.
    + cbn [meta hasMorePages nextOffset totalScanned].
      split; [reflexivity|]. split; [discriminate|]. intros _. split; reflexivity.
Qed.

(** C3, amended. On the filtered path [totalMatched] is the number of
    matches the loop has collected when it stops: the number of records
    of the fetched page that pass the predicate, capped at
    [requestedLimit] (at 1 for a limit below 1), which for a limit of at
    least 1 is the number of items returned; the items are the first
    [requestedLimit] passing records in arrival order and [totalScanned]
    is the size of the page. For a page of 100 records of which 12 pass
    and [requestedLimit = 5], the items are the first 5 of the 12,
    [totalScanned = 100] and [totalMatched = 5]. *)
Theorem totalMatched_counts_collected_matches :
  forall options w resp w',
    hasActiveFilters (filters options) = true ->
    fetchPage options FILTERED_PAGE_SIZE (initialOffset options) w
    = (inr resp, w') ->
    exists r,
      fst (run options (w, [])) = inr r
      /\ totalMatched (meta r)
         = Z.min (Z.max 1 (requestedLimit options))
             (JS.len (passing node options (data resp)))
      /\ totalScanned (meta r) = JS.len (data resp)
      /\ items r
         = firstn (Z.to_nat (requestedLimit options))
             (passing node options (data resp))
      /\ (1 <= requestedLimit options ->
          totalMatched (meta r) = JS.len (items r))
      /\ (JS.len (data resp) = 100 ->
          JS.len (passing node options (data resp)) = 12 ->
          requestedLimit options = 5 ->
          items r = firstn 5 (passing node options (data resp))
          /\ totalScanned (meta r) = 100
          /\ totalMatched (meta r) = 5).
Proof.
  intros options w resp w' Hact Hfetch.
  eexists. split.
  - rewrite (filteredFetch_filtered node number_toString options w [] resp w' Hact Hfetch).
    reflexivity.
  - cbn [meta items totalMatched totalScanned].
    split; [reflexivity|]. split; [reflexivity|]. split; [reflexivity|].
    split.
    + intros Hlimit. rewrite len_firstn. lia.
    + intros Hpage Hpassing Hlimit. rewrite Hpage, Hpassing, Hlimit.
      split; [reflexivity|]. split; reflexivity.
Qed.

(** C4. For a filter object with no field other than [genre_mode] set to
    a non-empty, non-false value, [filteredFetch] calls [fetchPage] once,
    with [requestedLimit] and [initialOffset], and when the fetch resolves
    it returns the fetched records as they are, [hasMorePages] being the
    truthiness of [paging.next], [totalScanned] and [totalMatched] the
    number of records, [pagesScanned] 1 and [activeFilters] empty. *)
Theorem inactive_spec_passes_through :
  forall options w,
    inactive_spec (filters options) ->
    snd (snd (run options (w, [])))
    = [(requestedLimit options, initialOffset options)]
    /\ forall resp w',
         fetchPage options (requestedLimit options) (initialOffset options) w
         = (inr resp, w') ->
         run options (w, [])
         = (inr {| items := data resp;
                   meta := {| totalScanned := JS.len (data resp);
                              totalMatched := JS.len (data resp);
                              pagesScanned := 1;
                              activeFilters := [];
                              hasMorePages :=
                                JS.truthy_string (next (paging resp));
                              nextOffset := None |} |},
            (w', [(requestedLimit options, initialOffset options)])).
Proof.
  intros options w Hinactive.
  apply hasActiveFilters_false_iff in Hinactive.
  split.
  - rewrite filteredFetch_calls_once. unfold pageSize. now rewrite Hinactive.
  - intros resp w' Hfetch.
    now rewrite (filteredFetch_unfiltered node number_toString options w [] resp w').
Qed.

(** C5. Whenever the fetch resolves with a page that holds no more
    records than the call asked for, and [requestedLimit] is not negative
    (the tools take limits from 1 to 100), [totalMatched] is at most
    [totalScanned] and the number of items returned is at most
    [min(requestedLimit, totalMatched)], with or without an active
    filter. *)
Theorem matched_scanned_and_returned_bounds :
  forall options w resp w',
    fetchPage options (pageSize options) (initialOffset options) w
    = (inr resp, w') ->
    JS.len (data resp) <= pageSize options ->
    0 <= requestedLimit options ->
    exists r,
      fst (run options (w, [])) = inr r
      /\ totalMatched (meta r) <= totalScanned (meta r)
      /\ JS.len (items r)
         <= Z.min (requestedLimit options) (totalMatched (meta r)).
Proof.
  intros options w resp w'. unfold pageSize.
  destruct (hasActiveFilters (filters options)) eqn:Hact;
    intros Hfetch Hsize Hlimit.
  - eexists. split.
    + rewrite (filteredFetch_filtered node number_toString options w [] resp w' Hact Hfetch).
      reflexivity.
    + cbn [meta items totalMatched totalScanned].
      rewrite len_firstn.
      pose proof (len_filter_le
                    (fun item =>
                       matchesFilters (node item) (filters options)
                         (seasonContext options))
                    (data resp)) as Hle.
      pose proof (len_nonneg (passing node options (data resp))) as Hnn.
      fold (passing node options (data resp)) in Hle.
      split; lia.
  - eexists. split.
    + rewrite (filteredFetch_unfiltered node number_toString options w [] resp w' Hact Hfetch).
      reflexivity.
    + cbn [meta items totalMatched totalScanned]. split; lia.
Qed.

(** C9. If [fetchPage] rejects, [filteredFetch] rejects with the same
    reason and no result, after that one request and without another;
    and [filteredFetch] rejects only with the reason of a rejected
    [fetchPage]. *)
Theorem fetchPage_failure_propagates_unmodified :
  forall options w,
    (forall e w',
        fetchPage options (pageSize options) (initialOffset options) w
        = (inl e, w') ->
        run options (w, [])
        = (inl e, (w', [(pageSize options, initialOffset options)])))
    /\ (forall e s,
           run options (w, []) = (inl e, s) ->
           fst (fetchPage options (pageSize options) (initialOffset options) w)
           = inl e).
Proof.
  intros options w. split.
  - intros e w' Hfetch.
    now rewrite (filteredFetch_rejected node number_toString options w [] e w').
  - intros e s.
    destruct (fetchPage options (pageSize options) (initialOffset options) w)
      as [[e0|resp] w'] eqn:Hfetch.
    + rewrite (filteredFetch_rejected node number_toString options w [] e0 w' Hfetch).
      intros H. now inversion H.
    + unfold pageSize in Hfetch.
      destruct (hasActiveFilters (filters options)) eqn:Hact.
      * rewrite (filteredFetch_filtered node number_toString options w [] resp w' Hact Hfetch).
        discriminate.
      * rewrite (filteredFetch_unfiltered node number_toString options w [] resp w' Hact Hfetch).
        discriminate.
Qed.

End Pagination.

(** ** The properties on concrete calls *)

Import Examples.

(** With [min_score] as the only filter, a record passes exactly when it
    has a score and the score is at least the threshold. *)
Lemma min_score_only_passes {L : LowerCasing} (n : FilterableNode) (q : Q)
    (ctx : option SeasonContext) :
  matchesFilters n (min_score_only q) ctx = true
  <-> exists m, Node.mean n = Some m /\ (q <= m)%Q.
Proof.
  unfold matchesFilters, min_score_only, JS.ltb_number; simpl.
  destruct (Node.mean n) as [m|].
  - pose proof (Qge_alt m q) as Hge. unfold Qge in Hge.
    destruct (m ?= q)%Q; split.
    + intros _. exists m. split; [reflexivity|]. apply Hge. discriminate.
    + reflexivity.
    + discriminate.
    + intros (m' & Hm & Hle). inversion Hm; subst m'.
      apply Hge in Hle. congruence.
    + intros _. exists m. split; [reflexivity|]. apply Hge. discriminate.
    + reflexivity.
  - split; [discriminate|]. intros (m & Hm & _). discriminate Hm.
Qed.

(** A page of 40 records with a continuation link: [hasMorePages] is
    false. A page of 100 records with a continuation link:
    [hasMorePages] is true. *)
Lemma hasMorePages_on_pages_of_40_and_100 :
  (hasActiveFilters (filters scenario_C) = true
   /\ fetchPage scenario_C FILTERED_PAGE_SIZE 0 0%nat
      = (inr (page (ranked 40) (Some link)), 1%nat)
   /\ JS.len (ranked 40) <= FILTERED_PAGE_SIZE
   /\ JS.len (ranked 40) < FILTERED_PAGE_SIZE
   /\ exists r,
        fst (run scenario_C) = inr r
        /\ hasMorePages (meta r) = false)
  /\ (hasActiveFilters (filters scenario_B) = true
      /\ fetchPage scenario_B FILTERED_PAGE_SIZE 0 0%nat
         = (inr (page (ranked 100) (Some link)), 1%nat)
      /\ JS.len (ranked 100) <= FILTERED_PAGE_SIZE
      /\ JS.truthy_string (Some link) = true
      /\ JS.len (ranked 100) = FILTERED_PAGE_SIZE
      /\ exists r,
           fst (run scenario_B) = inr r
           /\ hasMorePages (meta r) = true).
Proof.
  assert (H40 : JS.len (ranked 40) <= FILTERED_PAGE_SIZE) by discriminate.
  assert (H100 : JS.len (ranked 100) <= FILTERED_PAGE_SIZE) by discriminate.
  split.
  - split; [reflexivity|]. split; [reflexivity|]. split; [exact H40|].
    split; [reflexivity|].
    destruct (hasMorePages_iff_next_and_full_page item_node integral_toString
                scenario_C 0%nat (page (ranked 40) (Some link)) 1%nat
                eq_refl eq_refl H40)
      as (r & Hr & _ & Hshort).
    exists r. split; [exact Hr|]. apply Hshort. reflexivity.
  - split; [reflexivity|]. split; [reflexivity|]. split; [exact H100|].
    split; [reflexivity|]. split; [reflexivity|].
    destruct (hasMorePages_iff_next_and_full_page item_node integral_toString
                scenario_B 0%nat (page (ranked 100) (Some link)) 1%nat
                eq_refl eq_refl H100)
      as (r & Hr & Hiff & _).
    exists r. split; [exact Hr|]. apply Hiff. split; reflexivity.
Defined.

(** The bound on the size of the page is needed: were a remote to answer
    the request for 100 records with 101 and a continuation link,
    [hasMorePages] would be true on a page that does not hold exactly 100
    records. *)
Example hasMorePages_on_overlong_page :
  exists r,
    fst (run overlong_page) = inr r
    /\ JS.len (ranked 101) = 101
    /\ hasMorePages (meta r) = true.
Proof.
  eexists. split; [vm_compute; reflexivity|]. split; reflexivity.
Qed.

(** A full page whose [paging.next] is the empty string: the link is
    present and falsy, and [hasMorePages] is false. *)
Example empty_next_link_is_no_continuation :
  exists r,
    fst (run (call (serves (ranked 100) (Some "")) (min_score_only 8) 5 0))
    = inr r
    /\ JS.len (ranked 100) = FILTERED_PAGE_SIZE
    /\ hasMorePages (meta r) = false
    /\ nextOffset (meta r) = None.
Proof.
  eexists. split; [vm_compute; reflexivity|].
  split; [reflexivity|]. split; reflexivity.
Qed.

(** An unfiltered call on a catalog of 250 records: more pages are
    reported and no [nextOffset] is given. *)
Lemma nextOffset_absent_on_unfiltered_path :
  exists r,
    hasActiveFilters (filters scenario_A) = false
    /\ fst (run scenario_A) = inr r
    /\ hasMorePages (meta r) = true
    /\ nextOffset (meta r) = None.
Proof.
  eexists. split; [reflexivity|]. split; [vm_compute; reflexivity|].
  split; reflexivity.
Qed.

(** A filtered call at offset 20 on a full page: [nextOffset] is present
    with [hasMorePages] and is 20 plus the size of the page. *)
Lemma nextOffset_after_full_page_at_20 :
  fetchPage scenario_B_at_20 (pageSize scenario_B_at_20) 20 0%nat
  = (inr (page (ranked 100) (Some link)), 1%nat)
  /\ exists r,
       fst (run scenario_B_at_20) = inr r
       /\ totalScanned (meta r) = 100
       /\ (nextOffset (meta r) <> None <-> hasMorePages (meta r) = true)
       /\ forall n, nextOffset (meta r) = Some n -> n = 20 + totalScanned (meta r).
Proof.
  split; [reflexivity|].
  destruct (nextOffset_resumes_after_fetched_page item_node integral_toString
              scenario_B_at_20 0%nat (page (ranked 100) (Some link)) 1%nat
              eq_refl)
    as (r & Hr & Hscanned & Hfiltered & _).
  exists r. split; [exact Hr|]. split; [exact Hscanned|].
  exact (Hfiltered eq_refl).
Defined.

(** [min_score] 8, a page of 100 records of which 12 score at least 8,
    [requestedLimit] 5: [totalMatched] is 5, not 12. *)
Lemma totalMatched_is_5_of_12_passing :
  exists r,
    fst (run scenario_B) = inr r
    /\ JS.len (ranked 100) = 100
    /\ JS.len (passing item_node scenario_B (ranked 100)) = 12
    /\ map rank (passing item_node scenario_B (ranked 100))
       = [8; 16; 24; 32; 40; 48; 56; 64; 72; 80; 88; 96]
    /\ map rank (items r) = [8; 16; 24; 32; 40]
    /\ totalScanned (meta r) = 100
    /\ totalMatched (meta r) = 5
    /\ totalMatched (meta r) <> 12.
Proof.
  eexists. split; [vm_compute; reflexivity|].
  split; [reflexivity|]. split; [reflexivity|]. split; [reflexivity|].
  split; [reflexivity|]. split; [reflexivity|]. split; [reflexivity|].
  discriminate.
Qed.

Lemma first_5_of_12_passing :
  hasActiveFilters (filters scenario_B) = true
  /\ fetchPage scenario_B FILTERED_PAGE_SIZE 0 0%nat
     = (inr (page (ranked 100) (Some link)), 1%nat)
  /\ JS.len (ranked 100) = 100
  /\ JS.len (passing item_node scenario_B (ranked 100)) = 12
  /\ exists r,
       fst (run scenario_B) = inr r
       /\ items r = firstn 5 (passing item_node scenario_B (ranked 100))
       /\ totalScanned (meta r) = 100
       /\ totalMatched (meta r) = 5.
Proof.
  split; [reflexivity|]. split; [reflexivity|].
  split; [reflexivity|]. split; [reflexivity|].
  destruct (totalMatched_counts_collected_matches item_node integral_toString
              scenario_B 0%nat (page (ranked 100) (Some link)) 1%nat
              eq_refl eq_refl)
    as (r & Hr & _ & _ & _ & _ & Hscenario).
  exists r. split; [exact Hr|].
  exact (Hscenario eq_refl eq_refl eq_refl).
Defined.

(** An unfiltered call for 10 records at offset 0 on a catalog of 250:
    one request for (10, 0), and the first 10 records in remote order. *)
Lemma first_10_pass_through :
  inactive_spec (filters scenario_A)
  /\ snd (snd (run scenario_A)) = [(10, 0)]
  /\ exists r,
       fst (run scenario_A) = inr r
       /\ items r = ranked 10
       /\ activeFilters (meta r) = []
       /\ totalScanned (meta r) = 10
       /\ totalMatched (meta r) = 10
       /\ pagesScanned (meta r) = 1.
Proof.
  assert (Hinactive : inactive_spec (filters scenario_A)).
  { unfold inactive_spec, unset_or_empty; simpl. tauto. }
  split; [exact Hinactive|].
  destruct (inactive_spec_passes_through item_node integral_toString
              scenario_A 0%nat Hinactive)
    as [Hcalls Hresult].
  split; [exact Hcalls|].
  pose proof (Hresult _ _ eq_refl) as Hrun.
  eexists. split.
  - unfold run. rewrite Hrun. reflexivity.
  - repeat split; reflexivity.
Defined.

(** The bounds on a filtered call for 5 records that scans a page of 100,
    and on an unfiltered call for 10 records. *)
Lemma bounds_on_filtered_and_unfiltered_page :
  (fetchPage scenario_B (pageSize scenario_B) 0 0%nat
   = (inr (page (ranked 100) (Some link)), 1%nat)
   /\ JS.len (ranked 100) <= pageSize scenario_B
   /\ 0 <= requestedLimit scenario_B
   /\ exists r,
        fst (run scenario_B) = inr r
        /\ totalMatched (meta r) <= totalScanned (meta r)
        /\ JS.len (items r) <= Z.min 5 (totalMatched (meta r)))
  /\ (fetchPage scenario_A (pageSize scenario_A) 0 0%nat
      = (inr (page (ranked 10) (Some link)), 1%nat)
      /\ JS.len (ranked 10) <= pageSize scenario_A
      /\ 0 <= requestedLimit scenario_A
      /\ exists r,
           fst (run scenario_A) = inr r
           /\ totalMatched (meta r) <= totalScanned (meta r)
           /\ JS.len (items r) <= Z.min 10 (totalMatched (meta r))).
Proof.
  assert (HB : JS.len (ranked 100) <= pageSize scenario_B) by discriminate.
  assert (HA : JS.len (ranked 10) <= pageSize scenario_A) by discriminate.
  assert (H5 : 0 <= requestedLimit scenario_B) by discriminate.
  assert (H10 : 0 <= requestedLimit scenario_A) by discriminate.
  split.
  - split; [reflexivity|]. split; [exact HB|]. split; [exact H5|].
    exact (matched_scanned_and_returned_bounds item_node integral_toString
             scenario_B 0%nat (page (ranked 100) (Some link)) 1%nat
             eq_refl HB H5).
  - split; [reflexivity|]. split; [exact HA|]. split; [exact H10|].
    exact (matched_scanned_and_returned_bounds item_node integral_toString
             scenario_A 0%nat (page (ranked 10) (Some link)) 1%nat
             eq_refl HA H10).
Defined.

(** The bound on the size of the page is needed on the unfiltered path,
    which returns the page as it is: were a remote to answer the request
    for 2 records with 3, the call would return the 3. *)
Example unfiltered_call_returns_overlong_page :
  exists r,
    fst (run overlong_unfiltered) = inr r
    /\ requestedLimit overlong_unfiltered = 2
    /\ JS.len (items r) = 3
    /\ totalMatched (meta r) = 3.
Proof.
  eexists. split; [vm_compute; reflexivity|].
  split; [reflexivity|]. split; reflexivity.
Qed.

(** A remote that rejects with a 503: the call rejects with the same
    reason after its one request. *)
Lemma rejection_503_propagates :
  fetchPage remote_down (pageSize remote_down) 0 0%nat
  = (inl "503 Service Unavailable", 1%nat)
  /\ run remote_down = (inl "503 Service Unavailable", (1%nat, [(100, 0)])).
Proof.
  split; [reflexivity|].
  exact (proj1 (fetchPage_failure_propagates_unmodified item_node
                  integral_toString remote_down 0%nat)
           "503 Service Unavailable" 1%nat eq_refl).
Defined.

Lemma both_genres_match_under_or :
  matchesFilters (tagged ["Romance"; "Action"])
    (with_genre_mode (Some ModeAnd) (genres_only ["action"; "romance"] ModeOr))
    None = true
  /\ matchesFilters (tagged ["Romance"; "Action"])
       (with_genre_mode (Some ModeOr) (genres_only ["action"; "romance"] ModeOr))
       None = true.
Proof.
  split; [reflexivity|].
  exact (proj1 (and_mode_matches_are_or_mode_matches
                  (tagged ["Romance"; "Action"])
                  (genres_only ["action"; "romance"] ModeOr) None eq_refl)).
Defined.

(** Only records tagged with both genres pass under "and". *)
Example both_genres_under_and :
  matchesFilters (tagged ["Action"])
    (genres_only ["Action"; "Romance"] ModeAnd) None = false
  /\ matchesFilters (tagged ["Romance"; "Drama"; "Action"])
       (genres_only ["Action"; "Romance"] ModeAnd) None = true.
Proof. split; reflexivity. Qed.

Lemma identical_specs_describe_alike :
  same_fields everything (with_genre_mode (Some ModeAnd) everything)
  /\ buildActiveFilterDescriptions integral_toString everything
     = buildActiveFilterDescriptions integral_toString
         (with_genre_mode (Some ModeAnd) everything).
Proof.
  assert (H : same_fields everything (with_genre_mode (Some ModeAnd) everything)).
  { unfold same_fields; simpl. repeat split. }
  split; [exact H|].
  exact (proj2 (descriptions_deterministic_in_canonical_order
                  integral_toString everything
                  (with_genre_mode (Some ModeAnd) everything)) H).
Defined.

(** The description of a filter object with every field set, and of one
    with none. *)
Example describe_everything :
  buildActiveFilterDescriptions integral_toString everything
  = ["genres(AND)=Action,Romance"; "exclude_genres=Horror"; "min_score>=8";
     "min_members>=5000"; "media_type=tv,movie"; "status=finished_airing";
     "source=manga"; "current_season_only"]
  /\ buildActiveFilterDescriptions integral_toString defaults = [].
Proof. split; reflexivity. Qed.

(** A record that premiered in summer 2023 is rejected by a query for
    summer 2024 with [current_season_only]; without a season context it
    passes, and so does a record without a premiere season. *)
Lemma summer_2023_rejected_for_summer_2024 :
  matchesFilters (premiered 2023 "summer")
    (with_current_season_only (Some false) defaults) (Some summer_2024) = true
  /\ matchesFilters (premiered 2023 "summer")
       (with_current_season_only (Some true) defaults) (Some summer_2024) = false
  /\ matchesFilters (premiered 2023 "summer")
       (with_current_season_only (Some true) defaults) None = true
  /\ matchesFilters bare
       (with_current_season_only (Some true) defaults) None = true
  /\ exists c,
       Some summer_2024 = Some c
       /\ forall ss,
            Node.start_season (premiered 2023 "summer") = Some ss ->
            year ss <> queriedYear c \/ season ss <> queriedSeason c.
Proof.
  split; [reflexivity|]. split; [reflexivity|].
  split; [reflexivity|]. split; [reflexivity|].
  exact (proj2 (proj2 (season_check_needs_season_context
                         (premiered 2023 "summer") defaults))
           (Some summer_2024) eq_refl eq_refl).
Defined.

(** * Further properties *)

Import MoreExamples.

(** ** Filter objects *)

Lemma get_set (o : Obj.t) (k k' : string) (v : Value) :
  Obj.get (Obj.set o k v) k' = if String.eqb k k' then v else Obj.get o k'.
Proof.
  induction o as [|[k0 v0] o IH]; simpl.
  - reflexivity.
  - destruct (String.eqb k0 k) eqn:Hk0; simpl.
    + apply String.eqb_eq in Hk0. subst k0.
      destruct (String.eqb k k'); reflexivity.
    + rewrite IH. destruct (String.eqb k0 k') eqn:Hk0'; [|reflexivity].
      apply String.eqb_eq in Hk0'. subst k0. now rewrite String.eqb_sym, Hk0.
Qed.

Lemma keys_set (o : Obj.t) (k : string) (v : Value) :
  Obj.keys (Obj.set o k v)
  = if existsb (String.eqb k) (Obj.keys o) then Obj.keys o
    else (Obj.keys o ++ [k])%list.
Proof.
  unfold Obj.keys.
  induction o as [|[k0 v0] o IH]; simpl.
  - reflexivity.
  - rewrite (String.eqb_sym k k0).
    destruct (String.eqb k0 k); simpl; [reflexivity|].
    rewrite IH. now destruct (existsb (String.eqb k) (map fst o)).
Qed.

Lemma existsb_eqb_In (k : string) (l : list string) :
  existsb (String.eqb k) l = true <-> In k l.
Proof.
  rewrite existsb_exists. split.
  - intros (x & Hx & Heq). apply String.eqb_eq in Heq. now subst.
  - intros H. exists k. split; [exact H|apply String.eqb_refl].
Qed.

Lemma defined_iff (v : Value) : defined v = true <-> v <> VUndefined.
Proof.
  destruct v; simpl; split; congruence.
Qed.

Lemma In_get (o : Obj.t) (k : string) (v : Value) :
  NoDup (Obj.keys o) -> In (k, v) o -> Obj.get o k = v.
Proof.
  unfold Obj.keys.
  induction o as [|[k0 v0] o IH]; simpl; [tauto|].
  intros Hnd [Heq|Hin].
  - inversion Heq; subst. now rewrite String.eqb_refl.
  - inversion Hnd as [|? ? Hnot Hnd']; subst.
    destruct (String.eqb k0 k) eqn:Hk.
    + apply String.eqb_eq in Hk. subst k0. exfalso. apply Hnot.
      apply in_map_iff. now exists (k, v).
    + now apply IH.
Qed.

Lemma get_In (o : Obj.t) (k : string) (v : Value) :
  Obj.get o k = v -> v <> VUndefined -> In (k, v) o.
Proof.
  induction o as [|[k0 v0] o IH]; simpl.
  - congruence.
  - destruct (String.eqb k0 k) eqn:Hk.
    + apply String.eqb_eq in Hk. subst k0. intros -> _. now left.
    + intros Hget Hv. right. now apply IH.
Qed.

Lemma get_picked_from (args : Obj.t) (filterKeys : list string)
    (result : Obj.t) (k : string) :
  Obj.get (picked_from args filterKeys result) k
  = if existsb (String.eqb k) filterKeys && defined (Obj.get args k)
    then Obj.get args k
    else Obj.get result k.
Proof.
  unfold picked_from. revert result.
  induction filterKeys as [|k0 keys IH]; intros result; simpl.
  - reflexivity.
  - rewrite IH.
    assert (Hother : String.eqb k k0 = false ->
                     Obj.get
                       (if defined (Obj.get args k0)
                        then Obj.set result k0 (Obj.get args k0)
                        else result) k
                     = Obj.get result k).
    { intros Hk. destruct (defined (Obj.get args k0)); [|reflexivity].
      now rewrite get_set, String.eqb_sym, Hk. }
    destruct (String.eqb k k0) eqn:Hk; simpl.
    + apply String.eqb_eq in Hk. subst k0.
      destruct (defined (Obj.get args k)) eqn:Hdef;
        rewrite ?andb_true_r, ?andb_false_r.
      * destruct (existsb (String.eqb k) keys); [reflexivity|].
        now rewrite get_set, String.eqb_refl.
      * reflexivity.
    + rewrite (Hother eq_refl). reflexivity.
Qed.

Lemma picked_from_invariant (args : Obj.t) (filterKeys : list string)
    (result : Obj.t) :
  NoDup (Obj.keys result) ->
  Forall (fun e => defined (snd e) = true) result ->
  NoDup (Obj.keys (picked_from args filterKeys result))
  /\ Forall (fun e => defined (snd e) = true) (picked_from args filterKeys result).
Proof.
  unfold picked_from. revert result.
  induction filterKeys as [|k0 keys IH]; intros result Hnd Hdef; simpl.
  - now split.
  - destruct (defined (Obj.get args k0)) eqn:Hk0; [|now apply IH].
    apply IH.
    + rewrite keys_set.
      destruct (existsb (String.eqb k0) (Obj.keys result)) eqn:Hin; [exact Hnd|].
      apply NoDup_app; [exact Hnd|repeat constructor; simpl; tauto|].
      intros x Hx [Heq|[]]. subst x.
      apply existsb_eqb_In in Hx. congruence.
    + clear IH Hnd. induction result as [|[k1 v1] result IHr]; simpl.
      * repeat constructor. exact Hk0.
      * inversion Hdef; subst.
        destruct (String.eqb k1 k0); constructor; auto.
Qed.

Lemma get_pickFilters (args : Obj.t) (filterKeys : list string) (k : string) :
  Obj.get (pickFilters args filterKeys) k
  = if existsb (String.eqb k) filterKeys then Obj.get args k else VUndefined.
Proof.
  change (pickFilters args filterKeys) with (picked_from args filterKeys []).
  rewrite get_picked_from. simpl.
  destruct (existsb (String.eqb k) filterKeys); simpl; [|reflexivity].
  now destruct (Obj.get args k).
Qed.

Lemma In_pickFilters (args : Obj.t) (filterKeys : list string)
    (k : string) (v : Value) :
  In (k, v) (pickFilters args filterKeys)
  <-> In k filterKeys /\ Obj.get args k = v /\ v <> VUndefined.
Proof.
  destruct (picked_from_invariant args filterKeys [])
    as [Hnd Hdef]; [constructor|constructor|].
  change (picked_from args filterKeys []) with (pickFilters args filterKeys) in *.
  split.
  - intros Hin.
    assert (Hv : v <> VUndefined).
    { rewrite Forall_forall in Hdef. apply defined_iff. exact (Hdef _ Hin). }
    apply (In_get _ _ _ Hnd) in Hin. rewrite get_pickFilters in Hin.
    destruct (existsb (String.eqb k) filterKeys) eqn:Hk; [|congruence].
    apply existsb_eqb_In in Hk. tauto.
  - intros (Hk & Hget & Hv). apply get_In; [|exact Hv].
    rewrite get_pickFilters.
    apply existsb_eqb_In in Hk. now rewrite Hk.
Qed.

Lemma pickFilters_ext (args1 args2 : Obj.t) (filterKeys : list string) :
  (forall k, In k filterKeys -> Obj.get args1 k = Obj.get args2 k) ->
  pickFilters args1 filterKeys = pickFilters args2 filterKeys.
Proof.
  unfold pickFilters. generalize (@nil (string * Value)).
  induction filterKeys as [|k0 keys IH]; intros result Hget; simpl.
  - reflexivity.
  - rewrite (Hget k0) by now left.
    apply IH. intros k Hk. apply Hget. now right.
Qed.

Lemma active_entry_defined (k : string) (v : Value) :
  active_entry (k, v) = true -> v <> VUndefined.
Proof.
  unfold active_entry.
  destruct (existsb (String.eqb k) MODIFIER_KEYS); [discriminate|].
  destruct v; congruence.
Qed.

Lemma hasActiveFilters_object_pickFilters (args : Obj.t)
    (filterKeys : list string) :
  hasActiveFilters_object (pickFilters args filterKeys)
  = existsb (fun k => active_entry (k, Obj.get args k)) filterKeys.
Proof.
  unfold hasActiveFilters_object.
  apply eq_true_iff_eq. rewrite !existsb_exists. split.
  - intros ([k v] & Hin & Hact). apply In_pickFilters in Hin.
    destruct Hin as (Hk & Hget & _). exists k. now rewrite Hget.
  - intros (k & Hk & Hact). exists (k, Obj.get args k). split; [|exact Hact].
    apply In_pickFilters. repeat split; trivial.
    exact (active_entry_defined _ _ Hact).
Qed.

(** X1. The object [pickFilters] returns holds, of the arguments, the
    properties whose key is listed and whose value is not [undefined],
    and nothing else: reading a key gives the value of the arguments for
    a listed key and [undefined] for any other, and no key occurs
    twice. *)
Theorem pickFilters_keeps_listed_defined_properties :
  forall (args : Obj.t) (filterKeys : list string),
    (forall k,
        Obj.get (pickFilters args filterKeys) k
        = if existsb (String.eqb k) filterKeys then Obj.get args k
          else VUndefined)
    /\ (forall k v,
           In (k, v) (pickFilters args filterKeys)
           <-> In k filterKeys /\ Obj.get args k = v /\ v <> VUndefined)
    /\ NoDup (Obj.keys (pickFilters args filterKeys)).
Proof.
  intros args filterKeys. split; [|split].
  - intros k. apply get_pickFilters.
  - intros k v. apply In_pickFilters.
  - exact (proj1 (picked_from_invariant args filterKeys []
                    (NoDup_nil _) (Forall_nil _))).
Qed.

(** X2. Picking from a picked object with keys among those of the first
    pick is picking those keys from the arguments; in particular
    [pickFilters] is idempotent. *)
Theorem pickFilters_of_picked_object :
  forall (args : Obj.t) (keys1 keys2 : list string),
    incl keys2 keys1 ->
    pickFilters (pickFilters args keys1) keys2 = pickFilters args keys2.
Proof.
  intros args keys1 keys2 Hincl. apply pickFilters_ext.
  intros k Hk. rewrite get_pickFilters.
  apply Hincl, existsb_eqb_In in Hk. now rewrite Hk.
Qed.

Lemma manga_keys_of_seasonal_pick :
  incl MANGA_FILTER_KEYS SEASONAL_FILTER_KEYS
  /\ pickFilters (pickFilters action_args SEASONAL_FILTER_KEYS) MANGA_FILTER_KEYS
     = pickFilters action_args MANGA_FILTER_KEYS.
Proof.
  assert (H : incl MANGA_FILTER_KEYS SEASONAL_FILTER_KEYS).
  { intros k Hk. apply existsb_eqb_In. simpl in Hk.
    repeat (destruct Hk as [<-|Hk]; [reflexivity|]). destruct Hk. }
  split; [exact H|].
  exact (pickFilters_of_picked_object action_args _ _ H).
Defined.

(** X3. The picked object has an active filter exactly when one of the
    listed keys holds, in the arguments, a value that counts as active:
    any key but [genre_mode] whose value is not [undefined], [false] or
    an empty array. *)
Theorem picked_filters_active_iff_listed_key_active :
  forall (args : Obj.t) (filterKeys : list string),
    hasActiveFilters_object (pickFilters args filterKeys)
    = existsb (fun k => active_entry (k, Obj.get args k)) filterKeys.
Proof.
  intros args filterKeys. unfold hasActiveFilters_object.
  apply eq_true_iff_eq. rewrite !existsb_exists. split.
  - intros ([k v] & Hin & Hact). apply In_pickFilters in Hin.
    destruct Hin as (Hk & Hget & _). exists k. now rewrite Hget.
  - intros (k & Hk & Hact). exists (k, Obj.get args k). split; [|exact Hact].
    apply In_pickFilters. repeat split; trivial.
    exact (active_entry_defined _ _ Hact).
Qed.

Lemma typed_entry {A} (k : string) (inj : A -> Value)
    (proj : Value -> option A) (v : Value) :
  match proj v with
  | Some x => active_entry (k, inj x) = active_entry (k, v)
  | None => active_entry (k, v) = false
  end ->
  existsb active_entry (entry k inj (proj v)) = active_entry (k, v).
Proof.
  unfold entry. destruct (proj v); simpl; intros H.
  - now rewrite H, orb_false_r.
  - now rewrite H.
Qed.

Lemma hasActiveFilters_typed_view (o : Obj.t) :
  (forall k, In k SEASONAL_FILTER_KEYS ->
             schema_accepts k (Obj.get o k) = true) ->
  hasActiveFilters (FilterParams_of o)
  = existsb (fun k => active_entry (k, Obj.get o k)) SEASONAL_FILTER_KEYS.
Proof.
  intros Hvalid.
  assert (Hat : forall k, existsb (String.eqb k) SEASONAL_FILTER_KEYS = true ->
                          schema_accepts k (Obj.get o k) = true).
  { intros k Hk. apply Hvalid, existsb_eqb_In, Hk. }
  unfold hasActiveFilters, entries, FilterParams_of.
  cbn [Params.genres_include Params.genres_exclude Params.genre_mode
       Params.min_score Params.min_members Params.media_type Params.status
       Params.source Params.current_season_only].
  rewrite !existsb_app.
  rewrite (typed_entry "genres_include" VArray as_array),
    (typed_entry "genres_exclude" VArray as_array),
    (typed_entry "genre_mode" (fun m => VString (mode_string m)) as_mode),
    (typed_entry "min_score" VNumber as_number),
    (typed_entry "min_members" (fun n => VNumber (inject_Z n)) as_integer),
    (typed_entry "media_type" VArray as_array),
    (typed_entry "status" VString as_string),
    (typed_entry "source" VArray as_array),
    (typed_entry "current_season_only" VBoolean as_boolean).
  - simpl. now rewrite orb_false_r.
  - specialize (Hat "current_season_only" eq_refl).
    destruct (Obj.get o "current_season_only"); try discriminate; reflexivity.
  - specialize (Hat "source" eq_refl).
    destruct (Obj.get o "source"); try discriminate; reflexivity.
  - specialize (Hat "status" eq_refl).
    destruct (Obj.get o "status"); try discriminate; reflexivity.
  - specialize (Hat "media_type" eq_refl).
    destruct (Obj.get o "media_type"); try discriminate; reflexivity.
  - specialize (Hat "min_members" eq_refl).
    destruct (Obj.get o "min_members"); try discriminate; reflexivity.
  - specialize (Hat "min_score" eq_refl).
    destruct (Obj.get o "min_score"); try discriminate; reflexivity.
  - specialize (Hat "genre_mode" eq_refl).
    destruct (Obj.get o "genre_mode") as [| | |s|]; try discriminate;
      try reflexivity.
    simpl. now destruct (String.eqb s "and").
  - specialize (Hat "genres_exclude" eq_refl).
    destruct (Obj.get o "genres_exclude"); try discriminate; reflexivity.
  - specialize (Hat "genres_include" eq_refl).
    destruct (Obj.get o "genres_include"); try discriminate; reflexivity.
Qed.

(** X4. For arguments the schemas accept under the listed filter keys,
    the activity [hasActiveFilters] decides on the entries of the picked
    object is the activity of the fields that the predicate and the
    description builder read through the [FilterParams] cast. *)
Theorem typed_view_agrees_on_activity :
  forall (args : Obj.t) (filterKeys : list string),
    incl filterKeys SEASONAL_FILTER_KEYS ->
    (forall k, In k filterKeys -> schema_accepts k (Obj.get args k) = true) ->
    hasActiveFilters (FilterParams_of (pickFilters args filterKeys))
    = hasActiveFilters_object (pickFilters args filterKeys).
Proof.
  intros args filterKeys Hincl Hvalid.
  rewrite hasActiveFilters_typed_view, hasActiveFilters_object_pickFilters.
  - apply eq_true_iff_eq. rewrite !existsb_exists. split.
    + intros (k & _ & Hact). rewrite get_pickFilters in Hact.
      destruct (existsb (String.eqb k) filterKeys) eqn:Hk.
      * exists k. split; [now apply existsb_eqb_In|exact Hact].
      * now apply active_entry_defined in Hact.
    + intros (k & Hk & Hact). exists k. split; [now apply Hincl|].
      rewrite get_pickFilters.
      apply existsb_eqb_In in Hk. now rewrite Hk.
  - intros k _. rewrite get_pickFilters.
    destruct (existsb (String.eqb k) filterKeys) eqn:Hk; [|reflexivity].
    now apply Hvalid, existsb_eqb_In.
Qed.

Lemma action_args_typed_view :
  incl ANIME_FILTER_KEYS SEASONAL_FILTER_KEYS
  /\ (forall k, In k ANIME_FILTER_KEYS ->
                schema_accepts k (Obj.get action_args k) = true)
  /\ hasActiveFilters (FilterParams_of (pickFilters action_args ANIME_FILTER_KEYS))
     = hasActiveFilters_object (pickFilters action_args ANIME_FILTER_KEYS).
Proof.
  assert (Hincl : incl ANIME_FILTER_KEYS SEASONAL_FILTER_KEYS).
  { intros k Hk. apply in_or_app. now left. }
  assert (Hvalid : forall k, In k ANIME_FILTER_KEYS ->
                             schema_accepts k (Obj.get action_args k) = true).
  { intros k Hk. simpl in Hk.
    repeat (destruct Hk as [<-|Hk]; [reflexivity|]). destruct Hk. }
  split; [exact Hincl|]. split; [exact Hvalid|].
  exact (typed_view_agrees_on_activity action_args ANIME_FILTER_KEYS Hincl Hvalid).
Defined.

(** ** More on the predicate evaluator *)

Lemma reject_if_iff (c k : bool) :
  (if c then false else k) = true <-> c = false /\ k = true.
Proof.
  destruct c, k; intuition congruence.
Qed.

Lemma includes_In (l : list string) (x : string) :
  JS.includes l x = true <-> In x l.
Proof.
  apply existsb_eqb_In.
Qed.

Lemma includes_genre {L : LowerCasing} (n : FilterableNode) (w : string) :
  JS.includes
    (map (fun g => toLowerCase (name g)) (Node.genres n ?? []))
    (toLowerCase w) = true
  <-> has_genre n w.
Proof.
  rewrite includes_In, in_map_iff. unfold has_genre, case_variant.
  split; intros (g & H1 & H2); exists g; tauto.
Qed.

Lemma ltb_number_false (x y : Q) : JS.ltb_number x y = false <-> (y <= x)%Q.
Proof.
  unfold JS.ltb_number.
  pose proof (Qge_alt x y) as Hge. unfold Qge in Hge.
  destruct (x ?= y)%Q; split; intros H; try reflexivity; try discriminate.
  - apply Hge. discriminate.
  - apply Hge in H. congruence.
  - apply Hge. discriminate.
Qed.

Lemma truthy_string_Some (s : string) :
  JS.truthy_string (Some s) = true <-> s <> "".
Proof.
  destruct s; simpl; split; congruence.
Qed.

Lemma nonempty_orElse_nil {A} (a : option (list A)) :
  JS.nonempty a = false -> a ?? [] = [].
Proof.
  intros H. apply nonempty_false in H. destruct H as [-> | ->]; reflexivity.
Qed.

Lemma existsb_false_iff {A} (p : A -> bool) (l : list A) :
  existsb p l = false <-> forall x, In x l -> p x = false.
Proof.
  rewrite <- not_true_iff_false, existsb_exists. split.
  - intros H x Hx. apply not_true_iff_false. intros Hp. apply H. now exists x.
  - intros H (x & Hx & Hp). rewrite (H x Hx) in Hp. discriminate.
Qed.

Section Checks.

Context {L : LowerCasing}.
Variable n : FilterableNode.

Local Abbreviation genreNames :=
  (map (fun g => toLowerCase (name g)) (Node.genres n ?? [])).

Lemma include_check_iff (gi : option (list string)) (mode : GenreMode) :
  (if JS.nonempty gi
   then match mode with
        | ModeOr =>
            negb (existsb (fun w => JS.includes genreNames w)
                    (map toLowerCase (gi ?? [])))
        | ModeAnd =>
            negb (forallb (fun w => JS.includes genreNames w)
                    (map toLowerCase (gi ?? [])))
        end
   else false) = false
  <-> (JS.nonempty gi = true ->
       match mode with
       | ModeOr => exists w, In w (gi ?? []) /\ has_genre n w
       | ModeAnd => forall w, In w (gi ?? []) -> has_genre n w
       end).
Proof.
  destruct (JS.nonempty gi).
  - destruct mode; rewrite negb_false_iff.
    + rewrite existsb_exists. split.
      * intros (x & Hx & Hp) _. apply in_map_iff in Hx.
        destruct Hx as (w & <- & Hw). exists w. split; [exact Hw|].
        now apply includes_genre.
      * intros H. destruct (H eq_refl) as (w & Hw & Hg).
        exists (toLowerCase w). split; [now apply in_map|].
        now apply includes_genre.
    + rewrite forallb_forall. split.
      * intros H _ w Hw. apply includes_genre, H. now apply in_map.
      * intros H x Hx. apply in_map_iff in Hx.
        destruct Hx as (w & <- & Hw). apply includes_genre. now apply H.
  - split; [discriminate|reflexivity].
Qed.

Lemma exclude_check_iff (ge : option (list string)) :
  (if JS.nonempty ge
   then existsb (fun e => JS.includes genreNames e)
          (map toLowerCase (ge ?? []))
   else false) = false
  <-> forall e, In e (ge ?? []) -> ~ has_genre n e.
Proof.
  destruct (JS.nonempty ge) eqn:Hne.
  - rewrite existsb_false_iff. split.
    + intros H e He Hg. apply includes_genre in Hg.
      rewrite (H (toLowerCase e)) in Hg; [discriminate|now apply in_map].
    + intros H x Hx. apply in_map_iff in Hx. destruct Hx as (e & <- & He).
      apply not_true_iff_false. intros Hinc. apply (H e He).
      now apply includes_genre.
  - rewrite (nonempty_orElse_nil _ Hne). split; [intros _ e []|reflexivity].
Qed.

Lemma min_score_check_iff (min_score : option Q) :
  match min_score with
  | Some min_score =>
      match Node.mean n with
      | Some mean => JS.ltb_number mean min_score
      | None => true
      end
  | None => false
  end = false
  <-> forall q, min_score = Some q ->
                exists m, Node.mean n = Some m /\ (q <= m)%Q.
Proof.
  destruct min_score as [q0|].
  - destruct (Node.mean n) as [m|].
    + rewrite ltb_number_false. split.
      * intros H q Hq. inversion Hq; subst. now exists m.
      * intros H. destruct (H q0 eq_refl) as (m' & Hm & Hle).
        now inversion Hm; subst.
    + split; [discriminate|].
      intros H. destruct (H q0 eq_refl) as (m' & Hm & _). discriminate Hm.
  - split; [discriminate|reflexivity].
Qed.

Lemma min_members_check_iff (min_members : option Z) :
  match min_members with
  | Some min_members => Node.num_list_users n ?? 0 <? min_members
  | None => false
  end = false
  <-> forall k, min_members = Some k -> k <= Node.num_list_users n ?? 0.
Proof.
  destruct min_members as [k0|].
  - rewrite Z.ltb_ge. split.
    + intros H k Hk. now inversion Hk; subst.
    + intros H. now apply H.
  - split; [discriminate|reflexivity].
Qed.

Lemma membership_check_iff (allowed : option (list string))
    (value : option string) :
  (if JS.nonempty allowed
   then match value with
        | Some x =>
            negb (JS.truthy_string (Some x))
            || negb (JS.includes (allowed ?? []) x)
        | None => true
        end
   else false) = false
  <-> (JS.nonempty allowed = true ->
       exists x, value = Some x /\ x <> "" /\ In x (allowed ?? [])).
Proof.
  destruct (JS.nonempty allowed).
  - destruct value as [x|].
    + rewrite orb_false_iff, !negb_false_iff, truthy_string_Some, includes_In.
      split.
      * intros [H1 H2] _. now exists x.
      * intros H. destruct (H eq_refl) as (x' & Hx & H1 & H2).
        now inversion Hx; subst.
    + split; [discriminate|].
      intros H. destruct (H eq_refl) as (x & Hx & _). discriminate Hx.
  - split; [discriminate|reflexivity].
Qed.

Lemma status_check_iff (status : option string) :
  (if JS.truthy_string status
   then match Node.status n, status with
        | Some s, Some s' => negb (String.eqb s s')
        | _, _ => true
        end
   else false) = false
  <-> forall s, status = Some s -> s <> "" -> Node.status n = Some s.
Proof.
  destruct status as [s0|]; simpl.
  - destruct s0 as [|c s0].
    + split; [|reflexivity]. intros _ s Hs Hne. inversion Hs; subst.
      now contradiction Hne.
    + destruct (Node.status n) as [s|].
      * rewrite negb_false_iff, String.eqb_eq. split.
        -- intros -> s' Hs' _. now inversion Hs'.
        -- intros H. specialize (H _ eq_refl). 
           assert (Hs : Some s = Some (String c s0)) by (apply H; discriminate).
           now inversion Hs.
      * split; [discriminate|].
        intros H. specialize (H _ eq_refl).
        assert (Hs : @None string = Some (String c s0))
          by (apply H; discriminate).
        discriminate Hs.
  - split; [discriminate|reflexivity].
Qed.

Lemma season_check_iff (current_season_only : option bool)
    (ctx : option SeasonContext) :
  (if JS.truthy_bool current_season_only
   then match ctx with
        | Some c =>
            match Node.start_season n with
            | Some ss =>
                negb (year ss =? queriedYear c)
                || negb (String.eqb (season ss) (queriedSeason c))
            | None => true
            end
        | None => false
        end
   else false) = false
  <-> (current_season_only = Some true ->
       forall c, ctx = Some c ->
                 exists ss,
                   Node.start_season n = Some ss
                   /\ year ss = queriedYear c /\ season ss = queriedSeason c).
Proof.
  destruct current_season_only as [[|]|]; simpl.
  - destruct ctx as [c|].
    + destruct (Node.start_season n) as [ss|].
      * rewrite orb_false_iff, !negb_false_iff, Z.eqb_eq, String.eqb_eq.
        split.
        -- intros [H1 H2] _ c' Hc. inversion Hc; subst. now exists ss.
        -- intros H. destruct (H eq_refl c eq_refl) as (ss' & Hss & H1 & H2).
           now inversion Hss; subst.
      * split; [discriminate|].
        intros H. destruct (H eq_refl c eq_refl) as (ss & Hss & _).
        discriminate Hss.
    + split; [|reflexivity]. intros _ _ c Hc. discriminate Hc.
  - split; [|reflexivity]. intros _ H. discriminate H.
  - split; [|reflexivity]. intros _ H. discriminate H.
Qed.

End Checks.

Lemma and_iff_both (A A' B B' : Prop) :
  (A <-> A') -> (B <-> B') -> (A /\ B <-> A' /\ B').
Proof.
  tauto.
Qed.

Lemma matchesFilters_reflect {L : LowerCasing} (n : FilterableNode)
    (f : FilterParams)
    (ctx : option SeasonContext) :
  matchesFilters n f ctx = true <-> satisfies n f ctx.
Proof.
  unfold matchesFilters, satisfies. cbv zeta.
  rewrite reject_if_iff. apply and_iff_both; [apply include_check_iff|].
  rewrite reject_if_iff. apply and_iff_both; [apply exclude_check_iff|].
  rewrite reject_if_iff. apply and_iff_both; [apply min_score_check_iff|].
  rewrite reject_if_iff. apply and_iff_both; [apply min_members_check_iff|].
  rewrite reject_if_iff. apply and_iff_both; [apply membership_check_iff|].
  rewrite reject_if_iff. apply and_iff_both; [apply status_check_iff|].
  rewrite reject_if_iff. apply and_iff_both; [apply membership_check_iff|].
  rewrite reject_if_iff.
  rewrite <- (season_check_iff n). tauto.
Qed.

(** C7. Genre matching is case-insensitive for [genres_include] and
    [genres_exclude]. A requested or excluded genre is found on a record
    when the record carries a genre with the same lower-case form: with
    the genre fields as the only filters, a record passes exactly when the
    requested genres are found on it, letter case apart (all of them under
    "and", one of them otherwise), and none of the excluded genres is. And
    the result of the predicate, whatever the other filters, is the same
    on two records and two filter objects that differ only in the letter
    case of genre names. *)
Theorem genre_matching_ignores_letter_case {L : LowerCasing} :
  (forall (n : FilterableNode) (wanted excluded : option (list string))
          (mode : option GenreMode) (ctx : option SeasonContext),
      matchesFilters n (genre_filter wanted excluded mode) ctx = true
      <-> requested_genres_found n wanted mode
          /\ excluded_genres_absent n excluded)
  /\ (forall (n1 n2 : FilterableNode) (f1 f2 : FilterParams)
             (ctx : option SeasonContext),
         node_recased n1 n2 ->
         params_recased f1 f2 ->
         matchesFilters n1 f1 ctx = matchesFilters n2 f2 ctx).
Proof.
  split.
  - intros n wanted excluded mode ctx.
    rewrite matchesFilters_reflect.
    unfold satisfies, requested_genres_found, excluded_genres_absent,
      genre_filter.
    cbn [Params.genres_include Params.genres_exclude Params.genre_mode
         Params.min_score Params.min_members Params.media_type Params.status
         Params.source Params.current_season_only].
    split.
    + intros (Hwanted & Hexcluded & _). split; assumption.
    + intros [Hwanted Hexcluded].
      split; [exact Hwanted|]. split; [exact Hexcluded|].
      repeat split; intros; discriminate.
  - intros n1 n2 f1 f2 ctx
      (Hg & Hmean & Hmt & Hst & Hnum & Hsrc & Hss)
      (Hgi & Hge & Hmode & Hscore & Hmem & Hfmt & Hfst & Hfsrc & Hcso).
    apply genre_names_view in Hg.
    apply recased_view in Hgi. destruct Hgi as [Hgi1 Hgi2].
    apply recased_view in Hge. destruct Hge as [Hge1 Hge2].
    unfold matchesFilters.
    rewrite Hg, Hgi1, Hgi2, Hge1, Hge2, Hmean, Hmt, Hst, Hnum, Hsrc, Hss,
      Hmode, Hscore, Hmem, Hfmt, Hfst, Hfsrc, Hcso.
    reflexivity.
Qed.

(** A record tagged "Action" matches a request for "action" and is
    rejected by the exclusion of "ACTION"; a record tagged "Comedy" does
    not match the request; and the record and the request written in
    other letter cases match as well. *)
Lemma Action_matches_action :
  matchesFilters (tagged ["Action"]) (genre_filter (Some ["action"]) None None)
    None = true
  /\ matchesFilters (tagged ["Action"]) (genre_filter None (Some ["ACTION"]) None)
       None = false
  /\ matchesFilters (tagged ["Comedy"]) (genre_filter (Some ["action"]) None None)
       None = false
  /\ same_letters "Action" "ACTION" = true
  /\ same_letters "action" "aCtIoN" = true
  /\ node_recased (tagged ["Action"]) (tagged ["ACTION"])
  /\ params_recased (genre_filter (Some ["action"]) None None)
       (genre_filter (Some ["aCtIoN"]) None None)
  /\ matchesFilters (tagged ["ACTION"])
       (genre_filter (Some ["aCtIoN"]) None None) None = true.
Proof.
  destruct (genre_matching_ignores_letter_case (L := ascii_strings))
    as [Hgenres Hcase].
  assert (Haction : has_genre (tagged ["Action"]) "action").
  { exists {| name := "Action" |}. split; [left; reflexivity|reflexivity]. }
  assert (Hmatch :
            matchesFilters (tagged ["Action"])
              (genre_filter (Some ["action"]) None None) None = true).
  { apply Hgenres. split.
    - intros _. exists "action". split; [left; reflexivity|exact Haction].
    - intros e []. }
  assert (Hn : node_recased (tagged ["Action"]) (tagged ["ACTION"])).
  { unfold node_recased; simpl. repeat split. repeat constructor. }
  assert (Hf : params_recased (genre_filter (Some ["action"]) None None)
                 (genre_filter (Some ["aCtIoN"]) None None)).
  { unfold params_recased; simpl. repeat split. repeat constructor. }
  split; [exact Hmatch|]. split.
  { apply not_true_iff_false. intros H. apply Hgenres in H.
    destruct H as [_ Hexcluded].
    apply (Hexcluded "ACTION"); [left; reflexivity|].
    exists {| name := "Action" |}. split; [left; reflexivity|reflexivity]. }
  split.
  { apply not_true_iff_false. intros H. apply Hgenres in H.
    destruct H as [Hwanted _].
    destruct (Hwanted eq_refl) as (w & [<-|[]] & g & [<-|[]] & Hg).
    discriminate Hg. }
  split; [reflexivity|]. split; [reflexivity|].
  split; [exact Hn|]. split; [exact Hf|].
  rewrite <- (Hcase _ _ _ _ None Hn Hf). exact Hmatch.
Defined.

(** X5. A record passes a filter object exactly when it satisfies every
    check: the requested genres (all of them under "and", one of them
    otherwise, letter case apart), none of the excluded genres, a score
    that exists and reaches [min_score], a member count (0 when missing)
    that reaches [min_members], a non-empty media type and source among
    the allowed ones, the requested status, and, with
    [current_season_only] and a season context, a premiere in the queried
    season. Fields that are unset, empty or false impose nothing. *)
Theorem matchesFilters_true_iff_satisfies {L : LowerCasing} :
  forall (n : FilterableNode) (f : FilterParams) (ctx : option SeasonContext),
    matchesFilters n f ctx = true <-> satisfies n f ctx.
Proof.
  intros n f ctx. unfold matchesFilters, satisfies. cbv zeta.
  rewrite reject_if_iff. apply and_iff_both; [apply include_check_iff|].
  rewrite reject_if_iff. apply and_iff_both; [apply exclude_check_iff|].
  rewrite reject_if_iff. apply and_iff_both; [apply min_score_check_iff|].
  rewrite reject_if_iff. apply and_iff_both; [apply min_members_check_iff|].
  rewrite reject_if_iff. apply and_iff_both; [apply membership_check_iff|].
  rewrite reject_if_iff. apply and_iff_both; [apply status_check_iff|].
  rewrite reject_if_iff. apply and_iff_both; [apply membership_check_iff|].
  rewrite reject_if_iff.
  rewrite <- (season_check_iff n). tauto.
Qed.

(** X6. A filter object that [hasActiveFilters] finds inactive rejects no
    record, whatever the season context: the filtered path would return
    what the unfiltered path does. *)
Theorem inactive_filters_match_every_record {L : LowerCasing} :
  forall (f : FilterParams),
    hasActiveFilters f = false ->
    forall (n : FilterableNode) (ctx : option SeasonContext),
      matchesFilters n f ctx = true.
Proof.
  intros f H n ctx. apply hasActiveFilters_false_iff in H.
  destruct H as (Hgi & Hge & Hms & Hmm & Hmt & Hst & Hso & Hcso).
  apply nonempty_false in Hgi, Hge, Hmt, Hso.
  unfold matchesFilters. rewrite Hgi, Hge, Hms, Hmm, Hmt, Hst, Hso. simpl.
  destruct Hcso as [-> | ->]; reflexivity.
Qed.

Lemma defaults_match_every_record :
  hasActiveFilters defaults = false
  /\ matchesFilters bare defaults (Some summer_2024) = true.
Proof.
  split; [reflexivity|].
  exact (inactive_filters_match_every_record defaults eq_refl bare
           (Some summer_2024)).
Defined.

Ltac relax_split H :=
  apply reject_if_iff in H; destruct H as [?Hc H];
  apply reject_if_iff; split.

Ltac relax_field R :=
  destruct R as [R|R]; [now rewrite R|rewrite R; assumption].

(** X7. Unsetting or emptying fields of a filter object never loses a
    match: a record that passes a filter object passes every filter
    object each of whose fields is unset, empty, false, or the same. *)
Theorem relaxed_filters_match_more {L : LowerCasing} :
  forall (n : FilterableNode) (f f' : FilterParams)
         (ctx : option SeasonContext),
    relaxes f f' ->
    matchesFilters n f' ctx = true ->
    matchesFilters n f ctx = true.
Proof.
  intros n f f' ctx (R1 & R2 & R3 & R4 & R5 & R6 & R7 & R8) H.
  unfold matchesFilters in *. cbv zeta in *.
  relax_split H.
  { destruct R1 as [R|[R Rm]]; [now rewrite R|rewrite R, Rm; assumption]. }
  relax_split H; [relax_field R2|].
  relax_split H; [relax_field R3|].
  relax_split H; [relax_field R4|].
  relax_split H; [relax_field R5|].
  relax_split H; [relax_field R6|].
  relax_split H; [relax_field R7|].
  relax_split H; [relax_field R8|].
  reflexivity.
Qed.

Lemma score_filter_alone_matches_more :
  relaxes (min_score_only 8) everything
  /\ matchesFilters summer_hit everything (Some summer_2024) = true
  /\ matchesFilters summer_hit (min_score_only 8) (Some summer_2024) = true.
Proof.
  assert (R : relaxes (min_score_only 8) everything).
  { unfold relaxes; simpl. repeat split; auto. }
  split; [exact R|]. split; [reflexivity|].
  exact (relaxed_filters_match_more summer_hit _ _ (Some summer_2024) R eq_refl).
Defined.

(** X8. Lowering a threshold never loses a match: a record that passes
    with [min_score] or [min_members] at some value passes with any
    smaller value, the other fields unchanged. *)
Theorem lower_thresholds_match_more {L : LowerCasing} :
  forall (n : FilterableNode) (f : FilterParams) (ctx : option SeasonContext),
    (forall q q',
        (q <= q')%Q ->
        matchesFilters n (with_min_score (Some q') f) ctx = true ->
        matchesFilters n (with_min_score (Some q) f) ctx = true)
    /\ (forall k k',
           k <= k' ->
           matchesFilters n (with_min_members (Some k') f) ctx = true ->
           matchesFilters n (with_min_members (Some k) f) ctx = true).
Proof.
  intros n f ctx. split.
  - intros q q' Hle. unfold matchesFilters, with_min_score; simpl.
    repeat match goal with
           | |- (if ?c then false else _) = true ->
                (if ?c then false else _) = true =>
               destruct c; [discriminate|]
           end.
    destruct (Node.mean n) as [m|]; [|discriminate].
    destruct (JS.ltb_number m q') eqn:Hq'; [discriminate|].
    apply ltb_number_false in Hq'.
    assert (Hq : JS.ltb_number m q = false).
    { apply ltb_number_false. now apply Qle_trans with q'. }
    rewrite Hq. tauto.
  - intros k k' Hle. unfold matchesFilters, with_min_members; simpl.
    repeat match goal with
           | |- (if ?c then false else _) = true ->
                (if ?c then false else _) = true =>
               destruct c; [discriminate|]
           end.
    destruct ((Node.num_list_users n ?? 0) <? k') eqn:Hk'; [discriminate|].
    apply Z.ltb_ge in Hk'.
    assert (Hk : ((Node.num_list_users n ?? 0) <? k) = false)
      by (apply Z.ltb_ge; lia).
    rewrite Hk. tauto.
Qed.

Lemma score_9_passes_8_and_7 :
  (7 <= 8)%Q
  /\ matchesFilters (scored 9) (with_min_score (Some 8%Q) defaults) None = true
  /\ matchesFilters (scored 9) (with_min_score (Some 7%Q) defaults) None = true.
Proof.
  assert (H : (7 <= 8)%Q) by discriminate.
  split; [exact H|]. split; [reflexivity|].
  exact (proj1 (lower_thresholds_match_more (scored 9) defaults None)
           7%Q 8%Q H eq_refl).
Defined.

(** X9. With a season context, setting [current_season_only] adds
    exactly the requirement that the record premiered in the queried
    year and season; when the flag is not [true] the season context is
    ignored. *)
Theorem season_flag_adds_premiere_check {L : LowerCasing} :
  forall (n : FilterableNode) (f : FilterParams),
    (forall c,
        matchesFilters n (with_current_season_only (Some true) f) (Some c)
        = matchesFilters n (with_current_season_only (Some false) f) (Some c)
          && premiered_in n c)
    /\ (forall ctx,
           JS.truthy_bool (Params.current_season_only f) = false ->
           matchesFilters n f ctx = matchesFilters n f None).
Proof.
  intros n f. split.
  - intros c.
    unfold matchesFilters, with_current_season_only, premiered_in; simpl.
    repeat match goal with
           | |- (if ?c then false else _) = (if ?c then false else _) && _ =>
               destruct c; [reflexivity|]
           end.
    destruct (Node.start_season n) as [ss|]; [|reflexivity].
    now destruct (year ss =? queriedYear c),
      (String.eqb (season ss) (queriedSeason c)).
  - intros ctx Hflag. unfold matchesFilters. now rewrite Hflag.
Qed.

Lemma seasonal_default_ignores_context :
  JS.truthy_bool (Params.current_season_only defaults) = false
  /\ matchesFilters (premiered 2023 "summer") defaults (Some summer_2024)
     = matchesFilters (premiered 2023 "summer") defaults None.
Proof.
  split; [reflexivity|].
  exact (proj2 (season_flag_adds_premiere_check (premiered 2023 "summer")
                  defaults)
           (Some summer_2024) eq_refl).
Defined.

Lemma genre_names_orElse (n : FilterableNode) :
  genre_names n ?? [] = map name (Node.genres n ?? []).
Proof.
  unfold genre_names. now destruct (Node.genres n).
Qed.

Lemma has_genre_regrouped {L : LowerCasing} (n1 n2 : FilterableNode) (w : string) :
  same_members (genre_names n1 ?? []) (genre_names n2 ?? []) ->
  has_genre n1 w -> has_genre n2 w.
Proof.
  rewrite !genre_names_orElse. intros Hsame (g & Hg & Hcase).
  assert (Hin : In (name g) (map name (Node.genres n2 ?? []))).
  { apply Hsame. now apply in_map. }
  apply in_map_iff in Hin. destruct Hin as (g' & Hname & Hg').
  exists g'. split; [exact Hg'|]. now rewrite Hname.
Qed.

Lemma nonempty_member {A} (a : option (list A)) :
  JS.nonempty a = true <-> exists x, In x (a ?? []).
Proof.
  split.
  - intros H. destruct (nonempty_cons _ H) as (x & l & ->).
    exists x. now left.
  - intros (x & Hx). destruct a as [[|y l]|]; try contradiction. reflexivity.
Qed.

Lemma same_members_sym {A} (l1 l2 : list A) :
  same_members l1 l2 -> same_members l2 l1.
Proof.
  intros H x. now rewrite (H x).
Qed.

Lemma satisfies_regrouped {L : LowerCasing} (n1 n2 : FilterableNode)
    (f1 f2 : FilterParams)
    (ctx : option SeasonContext) :
  node_regrouped n1 n2 ->
  params_regrouped f1 f2 ->
  satisfies n1 f1 ctx -> satisfies n2 f2 ctx.
Proof.
  intros (Hg & Hmean & Hmt & Hst & Hnum & Hsrc & Hss)
    (Hgi & Hge & Hmode & Hscore & Hmem & Hfmt & Hfst & Hfsrc & Hcso)
    (S1 & S2 & S3 & S4 & S5 & S6 & S7 & S8).
  unfold satisfies.
  rewrite <- Hmean, <- Hmt, <- Hst, <- Hnum, <- Hsrc, <- Hss,
    <- Hmode, <- Hscore, <- Hmem, <- Hfmt, <- Hfst, <- Hfsrc, <- Hcso.
  repeat split; trivial.
  - intros Hne2.
    assert (Hne1 : JS.nonempty (Params.genres_include f1) = true).
    { apply nonempty_member. apply nonempty_member in Hne2.
      destruct Hne2 as (x & Hx). exists x. now apply Hgi. }
    specialize (S1 Hne1).
    destruct (Params.genre_mode f1 ?? ModeOr).
    + destruct S1 as (w & Hw & Hhas). exists w. split; [now apply Hgi|].
      now apply (has_genre_regrouped n1 n2).
    + intros w Hw. apply (has_genre_regrouped n1 n2); [exact Hg|].
      now apply S1, Hgi.
  - intros e He Hhas. apply (S2 e); [now apply Hge|].
    apply (has_genre_regrouped n2 n1); [now apply same_members_sym|exact Hhas].
Qed.

(** X10. The order and the repetitions of genre names do not matter: two
    records with the same set of genres, against two filter objects with
    the same sets of requested and of excluded genres, all else equal,
    get the same verdict. *)
Theorem genre_order_and_repeats_do_not_matter {L : LowerCasing} :
  forall (n1 n2 : FilterableNode) (f1 f2 : FilterParams)
         (ctx : option SeasonContext),
    node_regrouped n1 n2 ->
    params_regrouped f1 f2 ->
    matchesFilters n1 f1 ctx = matchesFilters n2 f2 ctx.
Proof.
  intros n1 n2 f1 f2 ctx Hn Hf.
  apply eq_true_iff_eq. rewrite !matchesFilters_reflect. split.
  - now apply satisfies_regrouped.
  - apply satisfies_regrouped.
    + destruct Hn as (Hg & Hmean & Hmt & Hst & Hnum & Hsrc & Hss).
      repeat split; try congruence; now apply same_members_sym.
    + destruct Hf as (Hgi & Hge & Hmode & Hscore & Hmem & Hfmt & Hfst
                      & Hfsrc & Hcso).
      repeat split; try congruence; now apply same_members_sym.
Qed.

Lemma swapped_and_repeated_genres_match_alike :
  node_regrouped (tagged ["Action"; "Romance"]) (tagged ["Romance"; "Action"; "Romance"])
  /\ params_regrouped (genres_only ["Romance"; "Action"] ModeAnd)
       (genres_only ["Action"; "Action"; "Romance"] ModeAnd)
  /\ matchesFilters (tagged ["Action"; "Romance"])
       (genres_only ["Romance"; "Action"] ModeAnd) None
     = matchesFilters (tagged ["Romance"; "Action"; "Romance"])
         (genres_only ["Action"; "Action"; "Romance"] ModeAnd) None.
Proof.
  assert (Hn : node_regrouped (tagged ["Action"; "Romance"])
                 (tagged ["Romance"; "Action"; "Romance"])).
  { unfold node_regrouped; simpl. repeat split; trivial; simpl; tauto. }
  assert (Hf : params_regrouped (genres_only ["Romance"; "Action"] ModeAnd)
                 (genres_only ["Action"; "Action"; "Romance"] ModeAnd)).
  { unfold params_regrouped; simpl.
    repeat split; trivial; simpl; tauto. }
  split; [exact Hn|]. split; [exact Hf|].
  exact (genre_order_and_repeats_do_not_matter _ _ _ _ None Hn Hf).
Defined.

(** ** Descriptions and activity *)

Lemma push_if_nil (c : bool) (s : string) (parts : list string) :
  push_if c s parts = [] -> c = false /\ parts = [].
Proof.
  unfold push_if, push. destruct c; [|tauto].
  intros H. now apply app_eq_nil in H.
Qed.

Lemma push_not_nil {A} (parts : list A) (s : A) : push parts s <> [].
Proof.
  unfold push. intros H. now apply app_eq_nil in H.
Qed.

Lemma truthy_string_false (s : option string) :
  JS.truthy_string s = false <-> s = None \/ s = Some "".
Proof.
  destruct s as [[|c s]|]; simpl; split; intros H; auto; try discriminate.
  destruct H; discriminate.
Qed.

Lemma truthy_bool_false (b : option bool) :
  JS.truthy_bool b = false <-> b = None \/ b = Some false.
Proof.
  destruct b as [[|]|]; simpl; split; intros H; auto; try discriminate.
  destruct H; discriminate.
Qed.

Lemma inactive_descriptions_nil (number_toString : Q -> string)
    (f : FilterParams) :
  hasActiveFilters f = false ->
  buildActiveFilterDescriptions number_toString f = [].
Proof.
  intros Hact. apply hasActiveFilters_false_iff in Hact.
  destruct Hact as (Hgi & Hge & Hms & Hmm & Hmt & Hst & Hso & Hcso).
  apply nonempty_false in Hgi, Hge, Hmt, Hso.
  unfold buildActiveFilterDescriptions.
  rewrite Hgi, Hge, Hms, Hmm, Hmt, Hst, Hso. simpl.
  destruct Hcso as [-> | ->]; reflexivity.
Qed.

Lemma active_descriptions_not_nil (number_toString : Q -> string)
    (f : FilterParams) :
  hasActiveFilters f = true ->
  Params.status f <> Some "" ->
  buildActiveFilterDescriptions number_toString f <> [].
Proof.
  intros Hact Hstatus Hnil.
  unfold buildActiveFilterDescriptions in Hnil. cbv zeta in Hnil.
  apply push_if_nil in Hnil. destruct Hnil as [Hcso Hnil].
  apply push_if_nil in Hnil. destruct Hnil as [Hso Hnil].
  apply push_if_nil in Hnil. destruct Hnil as [Hst Hnil].
  apply push_if_nil in Hnil. destruct Hnil as [Hmt Hnil].
  destruct (Params.min_members f) eqn:Hmm;
    [now apply push_not_nil in Hnil|].
  destruct (Params.min_score f) eqn:Hms;
    [now apply push_not_nil in Hnil|].
  apply push_if_nil in Hnil. destruct Hnil as [Hge Hnil].
  apply push_if_nil in Hnil. destruct Hnil as [Hgi _].
  assert (Hinactive : hasActiveFilters f = false).
  { apply hasActiveFilters_false_iff. unfold inactive_spec, unset_or_empty.
    apply nonempty_false in Hgi, Hge, Hmt, Hso.
    apply truthy_bool_false in Hcso.
    apply truthy_string_false in Hst.
    destruct Hst as [Hst|Hst]; [|contradiction].
    repeat split; assumption. }
  congruence.
Qed.

(** X11. The description list is non-empty only for an active filter
    object, and it is non-empty for every active filter object whose
    [status] is not the empty string: the tools, which print the filter
    header when the list is non-empty, print it exactly on the filtered
    path, the empty status apart. *)
Theorem descriptions_present_iff_active :
  forall (number_toString : Q -> string) (f : FilterParams),
    (buildActiveFilterDescriptions number_toString f <> [] ->
     hasActiveFilters f = true)
    /\ (hasActiveFilters f = true ->
        Params.status f <> Some "" ->
        buildActiveFilterDescriptions number_toString f <> []).
Proof.
  intros number_toString f. split.
  - intros Hshown. destruct (hasActiveFilters f) eqn:Hact; [reflexivity|].
    exfalso. now apply Hshown, inactive_descriptions_nil.
  - apply active_descriptions_not_nil.
Qed.

Lemma score_filter_is_described :
  hasActiveFilters (min_score_only 8) = true
  /\ Params.status (min_score_only 8) <> Some ""
  /\ buildActiveFilterDescriptions integral_toString (min_score_only 8) <> [].
Proof.
  assert (Hs : Params.status (min_score_only 8) <> Some "") by discriminate.
  split; [reflexivity|]. split; [exact Hs|].
  exact (proj2 (descriptions_present_iff_active integral_toString
                  (min_score_only 8)) eq_refl Hs).
Defined.

(** ** More on the orchestrator *)

Lemma subsequence_nil_l {A} (l : list A) : subsequence [] l.
Proof.
  induction l as [|x l IH]; [constructor|now apply subsequence_skip].
Qed.

Lemma subsequence_first_matches {A} (p : A -> bool) (k : nat) (l : list A) :
  subsequence (firstn k (filter p l)) l.
Proof.
  revert k. induction l as [|x l IH]; intros k; simpl.
  - rewrite firstn_nil. constructor.
  - destruct (p x).
    + destruct k; simpl.
      * apply subsequence_nil_l.
      * apply subsequence_keep, IH.
    + apply subsequence_skip, IH.
Qed.

Lemma Forall_first_matches {A} (p : A -> bool) (k : nat) (l : list A) :
  Forall (fun x => p x = true) (firstn k (filter p l)).
Proof.
  revert k. induction l as [|x l IH]; intros k; simpl.
  - rewrite firstn_nil. constructor.
  - destruct (p x) eqn:Hp; [|apply IH].
    destruct k; simpl; constructor; [exact Hp|apply IH].
Qed.

Section MoreOrchestrator.

Context {L : LowerCasing}.
Context {T : Type}.
Variable node : T -> FilterableNode.
Variable number_toString : Q -> string.
Context {E W : Type}.

Implicit Types (options : Options T (E := E) (W := W)).
Implicit Types (resp : MalListResponse T) (w : W) (e : E).

Local Abbreviation run := (filteredFetch node number_toString).

(** X12. With an active filter object a call makes one request, for
    [FILTERED_PAGE_SIZE] records at [initialOffset], whatever
    [requestedLimit] is: two calls that differ only in [requestedLimit]
    send the same request, leave the remote in the same state, fail
    alike, and report the same scan (size of the page, [hasMorePages],
    [nextOffset], descriptions). *)
Theorem filtered_request_ignores_requestedLimit :
  forall options (limit' : Z) w,
    hasActiveFilters (filters options) = true ->
    snd (run options (w, []))
    = snd (run (with_requestedLimit limit' options) (w, []))
    /\ snd (snd (run options (w, [])))
       = [(FILTERED_PAGE_SIZE, initialOffset options)]
    /\ match fst (run options (w, [])),
             fst (run (with_requestedLimit limit' options) (w, [])) with
       | inr r, inr r' => scan_report r = scan_report r'
       | inl e, inl e' => e = e'
       | _, _ => False
       end.
Proof.
  intros options limit' w Hact.
  assert (Hact' : hasActiveFilters (filters (with_requestedLimit limit' options))
                  = true) by exact Hact.
  destruct (fetchPage options FILTERED_PAGE_SIZE (initialOffset options) w)
    as [[e|resp] w'] eqn:Hfetch.
  - assert (Hsize : forall o : Options T (E := E) (W := W),
               hasActiveFilters (filters o) = true ->
               pageSize o = FILTERED_PAGE_SIZE).
    { intros o Ho. unfold pageSize. now rewrite Ho. }
    rewrite (filteredFetch_rejected node number_toString options w [] e w')
      by (rewrite (Hsize _ Hact); exact Hfetch).
    rewrite (filteredFetch_rejected node number_toString
               (with_requestedLimit limit' options) w [] e w')
      by (rewrite (Hsize _ Hact'); exact Hfetch).
    rewrite !(Hsize _ Hact), !(Hsize _ Hact'). repeat split.
  - rewrite (filteredFetch_filtered node number_toString options w [] resp w'
               Hact Hfetch).
    rewrite (filteredFetch_filtered node number_toString
               (with_requestedLimit limit' options) w [] resp w' Hact' Hfetch).
    repeat split.
Qed.

(** X13. On the filtered path every returned item passes the predicate,
    and the items are records of the fetched page in the order of the
    page; when no record of the page passes, the call still resolves,
    with no item and [totalMatched = 0]. *)
Theorem filtered_items_pass_and_keep_page_order :
  forall options w resp w',
    hasActiveFilters (filters options) = true ->
    fetchPage options FILTERED_PAGE_SIZE (initialOffset options) w
    = (inr resp, w') ->
    exists r,
      fst (run options (w, [])) = inr r
      /\ Forall
           (fun item =>
              matchesFilters (node item) (filters options)
                (seasonContext options) = true)
           (items r)
      /\ subsequence (items r) (data resp)
      /\ (passing node options (data resp) = [] ->
          items r = [] /\ totalMatched (meta r) = 0).
Proof.
  intros options w resp w' Hact Hfetch.
  eexists. split.
  - rewrite (filteredFetch_filtered node number_toString options w [] resp w'
               Hact Hfetch).
    reflexivity.
  - cbn [meta items totalMatched]. unfold passing.
    split; [apply Forall_first_matches|].
    split; [apply subsequence_first_matches|].
    intros ->. rewrite firstn_nil. split; [reflexivity|].
    change (JS.len (@nil T)) with 0. lia.
Qed.

(** X14. On the filtered path, when the records of the page that pass
    are no more than [requestedLimit], all of them are returned, in
    arrival order, and [totalMatched] is their number. *)
Theorem limit_not_reached_returns_every_match :
  forall options w resp w',
    hasActiveFilters (filters options) = true ->
    fetchPage options FILTERED_PAGE_SIZE (initialOffset options) w
    = (inr resp, w') ->
    JS.len (passing node options (data resp)) <= requestedLimit options ->
    exists r,
      fst (run options (w, [])) = inr r
      /\ items r = passing node options (data resp)
      /\ totalMatched (meta r) = JS.len (passing node options (data resp)).
Proof.
  intros options w resp w' Hact Hfetch Hle.
  eexists. split.
  - rewrite (filteredFetch_filtered node number_toString options w [] resp w'
               Hact Hfetch).
    reflexivity.
  - cbn [meta items totalMatched].
    pose proof (len_nonneg (passing node options (data resp))) as Hnn.
    split.
    + apply firstn_all2. unfold JS.len in *. lia.
    + destruct (passing node options (data resp)) as [|x l] eqn:Hp.
      * change (JS.len (@nil T)) with 0. lia.
      * assert (0 < JS.len (x :: l)) by (unfold JS.len; simpl; lia). lia.
Qed.

(** X15. The filter header of a filtered call with [requestedLimit] at
    least 1: it shows the number of items returned, the size of the
    fetched page, always "1 page", the descriptions joined by ", ", and
    the remark on more results exactly when [hasMorePages]. *)
Theorem filter_header_of_filtered_call :
  forall options w resp w',
    hasActiveFilters (filters options) = true ->
    fetchPage options FILTERED_PAGE_SIZE (initialOffset options) w
    = (inr resp, w') ->
    1 <= requestedLimit options ->
    exists r,
      fst (run options (w, [])) = inr r
      /\ formatFilterMeta (meta r)
         = ("Showing " ++ integer_toString (JS.len (items r))
            ++ " results (filtered from "
            ++ integer_toString (JS.len (data resp))
            ++ " scanned, " ++ "1 page" ++ ")")
           ++ " | Filters: "
           ++ JS.join ", "
                (buildActiveFilterDescriptions number_toString (filters options))
           ++ (if hasMorePages (meta r)
               then " | More results may exist beyond scanned pages."
               else "").
Proof.
  intros options w resp w' Hact Hfetch Hlimit.
  eexists. split.
  - rewrite (filteredFetch_filtered node number_toString options w [] resp w'
               Hact Hfetch).
    reflexivity.
  - unfold formatFilterMeta.
    cbn [meta items totalMatched totalScanned pagesScanned activeFilters
         hasMorePages].
    rewrite len_firstn.
    replace (Z.of_nat (Z.to_nat (requestedLimit options)))
      with (Z.max 1 (requestedLimit options)) by lia.
    reflexivity.
Qed.

End MoreOrchestrator.

Lemma scenario_B_with_limit_50 :
  hasActiveFilters (filters scenario_B) = true
  /\ snd (Examples.run scenario_B)
     = snd (Examples.run (with_requestedLimit 50 scenario_B))
  /\ snd (snd (Examples.run scenario_B)) = [(100, 0)].
Proof.
  split; [reflexivity|].
  destruct (filtered_request_ignores_requestedLimit item_node integral_toString
              scenario_B 50 0%nat eq_refl)
    as (Hsame & Hcalls & _).
  split; [exact Hsame|exact Hcalls].
Defined.

Lemma scenario_B_items_pass :
  hasActiveFilters (filters scenario_B) = true
  /\ fetchPage scenario_B FILTERED_PAGE_SIZE 0 0%nat
     = (inr (page (ranked 100) (Some link)), 1%nat)
  /\ exists r,
       fst (Examples.run scenario_B) = inr r
       /\ Forall
            (fun item =>
               matchesFilters (item_node item) (min_score_only 8) None = true)
            (items r)
       /\ subsequence (items r) (ranked 100).
Proof.
  split; [reflexivity|]. split; [reflexivity|].
  destruct (filtered_items_pass_and_keep_page_order item_node integral_toString
              scenario_B 0%nat (page (ranked 100) (Some link)) 1%nat
              eq_refl eq_refl)
    as (r & Hr & Hpass & Hsub & _).
  exists r. split; [exact Hr|]. split; [exact Hpass|exact Hsub].
Defined.

Lemma scenario_B_with_limit_50_returns_all_12 :
  hasActiveFilters (filters (with_requestedLimit 50 scenario_B)) = true
  /\ JS.len (passing item_node (with_requestedLimit 50 scenario_B) (ranked 100))
     <= 50
  /\ exists r,
       fst (Examples.run (with_requestedLimit 50 scenario_B)) = inr r
       /\ map rank (items r)
          = [8; 16; 24; 32; 40; 48; 56; 64; 72; 80; 88; 96]
       /\ totalMatched (meta r) = 12.
Proof.
  assert (Hle : JS.len (passing item_node (with_requestedLimit 50 scenario_B)
                          (ranked 100)) <= 50) by discriminate.
  split; [reflexivity|]. split; [exact Hle|].
  destruct (limit_not_reached_returns_every_match item_node integral_toString
              (with_requestedLimit 50 scenario_B) 0%nat
              (page (ranked 100) (Some link)) 1%nat eq_refl eq_refl Hle)
    as (r & Hr & Hitems & Hmatched).
  exists r. split; [exact Hr|]. split.
  - rewrite Hitems. reflexivity.
  - rewrite Hmatched. reflexivity.
Defined.

Lemma scenario_B_header :
  hasActiveFilters (filters scenario_B) = true
  /\ 1 <= requestedLimit scenario_B
  /\ exists r,
       fst (Examples.run scenario_B) = inr r
       /\ formatFilterMeta (meta r)
          = "Showing 5 results (filtered from 100 scanned, 1 page) | Filters: min_score>=8 | More results may exist beyond scanned pages.".
Proof.
  assert (Hlimit : 1 <= requestedLimit scenario_B) by discriminate.
  split; [reflexivity|]. split; [exact Hlimit|].
  destruct (filter_header_of_filtered_call item_node integral_toString
              scenario_B 0%nat (page (ranked 100) (Some link)) 1%nat
              eq_refl eq_refl Hlimit)
    as (r & Hr & Hheader).
  exists r. split; [exact Hr|].
  rewrite Hheader. unfold Examples.run in Hr.
  rewrite (filteredFetch_filtered item_node integral_toString scenario_B 0%nat
             [] (page (ranked 100) (Some link)) 1%nat eq_refl eq_refl) in Hr.
  inversion Hr; subst r. reflexivity.
Defined.

(** ** Formatting *)

Lemma occurs_replace_underscores (s : string) :
  occurs "_" (replace_underscores s) = false.
Proof.
  unfold replace_underscores.
  induction s as [|c s IH]; cbn [occurs JS.map_chars]; [reflexivity|].
  rewrite IH, orb_false_r.
  destruct (Ascii.eqb c "_") eqn:Hc; [reflexivity|].
  now rewrite Ascii.eqb_sym.
Qed.

Lemma length_replace_underscores (s : string) :
  String.length (replace_underscores s) = String.length s.
Proof.
  unfold replace_underscores.
  induction s as [|c s IH]; cbn [JS.map_chars String.length];
    [reflexivity|now rewrite IH].
Qed.

Lemma replace_underscores_idempotent (s : string) :
  replace_underscores (replace_underscores s) = replace_underscores s.
Proof.
  unfold replace_underscores.
  induction s as [|c s IH]; cbn [JS.map_chars]; [reflexivity|].
  rewrite IH. destruct (Ascii.eqb c "_") eqn:Hc; [reflexivity|].
  now rewrite Hc.
Qed.

(** X16. [formatStatus] never returns the empty string nor a string with
    an underscore; on a non-empty status it keeps the length, and
    formatting its own output changes nothing. *)
Theorem formatStatus_output_is_clean :
  forall (status : option string),
    formatStatus status <> ""
    /\ occurs "_" (formatStatus status) = false
    /\ (JS.truthy_string status = true ->
        String.length (formatStatus status) = String.length (status ?? ""))
    /\ formatStatus (Some (formatStatus status)) = formatStatus status.
Proof.
  intros status. unfold formatStatus.
  destruct status as [[|c s]|]; simpl.
  - repeat split; try discriminate; reflexivity.
  - split; [destruct (Ascii.eqb c "_"); discriminate|].
    split.
    { change (occurs "_" (replace_underscores (String c s)) = false).
      apply occurs_replace_underscores. }
    split.
    { intros _. change (String.length (replace_underscores (String c s))
                        = String.length (String c s)).
      apply length_replace_underscores. }
    change (replace_underscores (replace_underscores (String c s))
            = replace_underscores (String c s)).
    apply replace_underscores_idempotent.
  - repeat split; try discriminate; reflexivity.
Qed.

Lemma not_yet_aired_is_clean :
  JS.truthy_string (Some "not_yet_aired") = true
  /\ formatStatus (Some "not_yet_aired") = "not yet aired"
  /\ String.length (formatStatus (Some "not_yet_aired"))
     = String.length "not_yet_aired".
Proof.
  split; [reflexivity|]. split; [reflexivity|].
  exact (proj1 (proj2 (proj2 (formatStatus_output_is_clean
                                (Some "not_yet_aired")))) eq_refl).
Defined.

Lemma paginationInfo_truthy (paging : MalPaging) :
  paginationInfo paging
  = if JS.truthy_string (next paging)
    then LF ++ "More results available (increase offset)."
    else "".
Proof.
  unfold paginationInfo. now destruct (JS.truthy_string (next paging)).
Qed.

Lemma formatAnimeList_next_truthiness (items : list AnimeListItem.t)
    (paging paging' : MalPaging) :
  JS.truthy_string (next paging) = JS.truthy_string (next paging') ->
  formatAnimeList items paging = formatAnimeList items paging'.
Proof.
  intros H. unfold formatAnimeList. now rewrite !paginationInfo_truthy, H.
Qed.

Lemma nth_error_mapi_from {A B} (f : A -> Z -> B) (k : Z) (l : list A)
    (i : nat) :
  nth_error (mapi_from f k l) i
  = option_map (fun x => f x (k + Z.of_nat i)) (nth_error l i).
Proof.
  revert k i. induction l as [|x l IH]; intros k i; simpl.
  - now destruct i.
  - destruct i as [|i]; simpl.
    + now rewrite Z.add_0_r.
    + rewrite IH. destruct (nth_error l i); simpl; [|reflexivity].
      do 2 f_equal. lia.
Qed.

Lemma length_mapi_from {A B} (f : A -> Z -> B) (k : Z) (l : list A) :
  List.length (mapi_from f k l) = List.length l.
Proof.
  revert k. induction l as [|x l IH]; intros k; simpl; [reflexivity|].
  now rewrite IH.
Qed.

Lemma formatAnimeCompact_head (node : Anime.t) (prefix : string) :
  exists rest,
    formatAnimeCompact node prefix = (prefix ++ Anime.title node) ++ LF ++ rest.
Proof.
  unfold formatAnimeCompact, push_if, push.
  destruct (JS.nonempty (Anime.genres node)),
    (Anime.start_season node), (JS.nonempty (Anime.studios node));
    cbn [app JS.join String.concat]; eexists; reflexivity.
Qed.

(** X17. A non-empty list is printed as one entry per item, in the order
    of the list, separated by empty lines and followed by the remark on
    more results; the entry of the item at index [i] starts with the
    number [i + 1], a full stop, and the title of the item. *)
Theorem formatAnimeList_numbers_items_in_order :
  forall (items : list AnimeListItem.t) (paging : MalPaging),
    items <> [] ->
    exists lines,
      formatAnimeList items paging
      = JS.join (LF ++ LF) lines ++ paginationInfo paging
      /\ List.length lines = List.length items
      /\ forall i item,
           nth_error items i = Some item ->
           exists rest,
             nth_error lines i
             = Some (((integer_toString (Z.of_nat i + 1) ++ ". ")
                      ++ Anime.title (AnimeListItem.node item))
                     ++ LF ++ rest).
Proof.
  intros items paging Hitems.
  eexists. split; [|split].
  - unfold formatAnimeList.
    destruct items as [|item items]; [congruence|].
    replace (JS.len (item :: items) =? 0) with false; [reflexivity|].
    symmetry. apply Z.eqb_neq. unfold JS.len. simpl. lia.
  - apply length_mapi_from.
  - intros i item Hi. rewrite nth_error_mapi_from, Hi. simpl.
    destruct (formatAnimeCompact_head (AnimeListItem.node item)
                (integer_toString (Z.of_nat i + 1) ++ ". "))
      as (rest & Hrest).
    exists rest. now rewrite Hrest.
Qed.

Lemma frieren_is_listed_first :
  data (anime_page None) <> []
  /\ exists lines rest,
       formatAnimeList (data (anime_page None)) (paging (anime_page None))
       = JS.join (LF ++ LF) lines ++ paginationInfo (paging (anime_page None))
       /\ nth_error lines 0
          = Some ((("1" ++ ". ") ++ "Sousou no Frieren") ++ LF ++ rest).
Proof.
  assert (H : data (anime_page None) <> []) by discriminate.
  split; [exact H|].
  destruct (formatAnimeList_numbers_items_in_order (data (anime_page None))
              (paging (anime_page None)) H)
    as (lines & Htext & _ & Hentry).
  destruct (Hentry 0%nat {| AnimeListItem.node := frieren |} eq_refl)
    as (rest & Hrest).
  exists lines, rest. split; [exact Htext|exact Hrest].
Defined.

(** ** Tool handlers *)

(** X18. The season of the clock: for a month index from 0 to 11 the
    seasons are the four runs of three months from January, in the order
    winter, spring, summer, fall, and the year is the year of the
    clock. *)
Theorem getCurrentSeason_by_quarter :
  forall (now : Date),
    0 <= getMonth now <= 11 ->
    season (getCurrentSeason now)
    = nth (Z.to_nat (getMonth now / 3)) ["winter"; "spring"; "summer"; "fall"] ""
    /\ year (getCurrentSeason now) = getFullYear now.
Proof.
  intros now Hmonth. split; [|reflexivity].
  unfold getCurrentSeason. cbn [season].
  assert (H : getMonth now = 0 \/ getMonth now = 1 \/ getMonth now = 2
              \/ getMonth now = 3 \/ getMonth now = 4 \/ getMonth now = 5
              \/ getMonth now = 6 \/ getMonth now = 7 \/ getMonth now = 8
              \/ getMonth now = 9 \/ getMonth now = 10 \/ getMonth now = 11)
    by lia.
  repeat (destruct H as [H|H]; [rewrite H; reflexivity|]).
  rewrite H. reflexivity.
Qed.

Lemma november_is_fall :
  0 <= getMonth {| getMonth := 10; getFullYear := 2026 |} <= 11
  /\ season (getCurrentSeason {| getMonth := 10; getFullYear := 2026 |}) = "fall"
  /\ year (getCurrentSeason {| getMonth := 10; getFullYear := 2026 |}) = 2026.
Proof.
  assert (H : 0 <= getMonth {| getMonth := 10; getFullYear := 2026 |} <= 11)
    by (split; discriminate).
  split; [exact H|].
  exact (getCurrentSeason_by_quarter
           {| getMonth := 10; getFullYear := 2026 |} H).
Defined.

Section SearchTool.

Context {L : LowerCasing}.
Variable number_toString : Q -> string.
Context {W : Type}.
Variable searchAnime :
  string -> Z -> Z -> bool ->
  Promise (E := Thrown) (W := W) (MalListResponse AnimeListItem.t).
Variables (query : string) (limit offset : Z) (nsfw : bool) (rest : Obj.t).

Local Abbreviation picked := (FilterParams_of (pickFilters rest ANIME_FILTER_KEYS)).
Local Abbreviation anime_node :=
  (fun item : AnimeListItem.t => filterable (AnimeListItem.node item)).
Local Abbreviation tool :=
  (mal_search_anime number_toString searchAnime query limit offset nsfw rest).

(** The options the handler passes to [filteredFetch]. *)
Local Abbreviation options :=
  {| fetchPage := fun l o => searchAnime query l o nsfw;
     filters := picked;
     requestedLimit := limit;
     initialOffset := offset;
     seasonContext := None |}.

(** X19. The handler of [mal_search_anime] never rejects and sends one
    request to the client, for 100 records when a filter is active and
    for [limit] records otherwise, at [offset]. When the request fails
    the result is flagged as an error and its text is "Error: " followed
    by the message of the error (or by the thrown value as a string);
    when it succeeds the result carries no error flag. *)
Theorem search_tool_never_rejects :
  forall (w : W),
    let size := if hasActiveFilters picked then FILTERED_PAGE_SIZE else limit in
    exists r,
      tool (w, [])
      = (inr r, (snd (searchAnime query size offset nsfw w), [(size, offset)]))
      /\ match fst (searchAnime query size offset nsfw w) with
         | inl (ErrorObject message) =>
             r = toolResult ("Error: " ++ message) true
         | inl (OtherValue asString) =>
             r = toolResult ("Error: " ++ asString) true
         | inr _ => isError r = None
         end.
Proof.
  intros w size.
  unfold mal_search_anime, handleToolError, bind.
  destruct (searchAnime query size offset nsfw w) as [[e|resp] w'] eqn:Hfetch.
  - rewrite (filteredFetch_rejected anime_node number_toString options w [] e w')
      by exact Hfetch.
    eexists. split; [reflexivity|]. now destruct e.
  - subst size. destruct (hasActiveFilters picked) eqn:Hact.
    + rewrite (filteredFetch_filtered anime_node number_toString options w []
                 resp w' Hact Hfetch).
      cbn [meta activeFilters].
      match goal with
      | |- context [if ?c then ret _ else ret _] => destruct c
      end; eexists; split; reflexivity.
    + rewrite (filteredFetch_unfiltered anime_node number_toString options w []
                 resp w' Hact Hfetch).
      eexists. split; reflexivity.
Qed.

(** X20. Without an active filter the text of the tool is the page of
    the client formatted as it is: the records in remote order, numbered
    from 1, with the remark on more results exactly when the page has a
    truthy [paging.next]; no filter header is printed. *)
Theorem unfiltered_search_prints_the_page :
  forall (w w' : W) (resp : MalListResponse AnimeListItem.t),
    hasActiveFilters picked = false ->
    searchAnime query limit offset nsfw w = (inr resp, w') ->
    tool (w, [])
    = (inr (toolResult (formatAnimeList (data resp) (paging resp)) false),
       (w', [(limit, offset)])).
Proof.
  intros w w' resp Hact Hfetch.
  unfold mal_search_anime, handleToolError, bind.
  rewrite (filteredFetch_unfiltered anime_node number_toString options w []
             resp w' Hact Hfetch).
  cbn [meta items activeFilters hasMorePages]. simpl. unfold ret.
  rewrite (formatAnimeList_next_truthiness (data resp) _ (paging resp));
    [reflexivity|].
  simpl. now destruct (JS.truthy_string (next (paging resp))).
Qed.

(** X21. With an active filter whose [status] is not the empty string,
    when no record of the fetched page passes, the text of the tool is
    the filter header, showing 0 results of the size of the page,
    followed by an empty line and "No anime found."; the remark on more
    results is in the header when the page is full and has a truthy
    [paging.next], and the hint on the offset is not printed. *)
Theorem filtered_search_without_match :
  forall (w w' : W) (resp : MalListResponse AnimeListItem.t),
    hasActiveFilters picked = true ->
    Params.status picked <> Some "" ->
    searchAnime query FILTERED_PAGE_SIZE offset nsfw w = (inr resp, w') ->
    (forall item,
        In item (data resp) ->
        matchesFilters (anime_node item) picked None = false) ->
    tool (w, [])
    = (inr
         (toolResult
            ((("Showing " ++ "0" ++ " results (filtered from "
               ++ integer_toString (JS.len (data resp))
               ++ " scanned, " ++ "1 page" ++ ")")
              ++ " | Filters: "
              ++ JS.join ", "
                   (buildActiveFilterDescriptions number_toString picked)
              ++ (if JS.truthy_string (next (paging resp))
                     && (FILTERED_PAGE_SIZE <=? JS.len (data resp))
                  then " | More results may exist beyond scanned pages."
                  else ""))
             ++ LF ++ LF ++ "No anime found.")
            false),
       (w', [(FILTERED_PAGE_SIZE, offset)])).
Proof.
  intros w w' resp Hact Hstatus Hfetch Hnone.
  assert (Hpassing : passing anime_node options (data resp) = []).
  { unfold passing. cbn [filters seasonContext].
    induction (data resp) as [|item window IH]; [reflexivity|].
    simpl. rewrite (Hnone item) by now left.
    apply IH. intros item' Hin. apply Hnone. now right. }
  pose proof (active_descriptions_not_nil number_toString picked Hact Hstatus)
    as Hshown.
  unfold mal_search_anime, handleToolError, bind.
  rewrite (filteredFetch_filtered anime_node number_toString options w []
             resp w' Hact Hfetch).
  rewrite Hpassing. rewrite firstn_nil.
  cbn [meta items activeFilters hasMorePages totalMatched
       filters requestedLimit initialOffset].
  destruct (buildActiveFilterDescriptions number_toString picked)
    as [|d ds] eqn:Hd; [congruence|].
  replace (0 <? JS.len (d :: ds)) with true
    by (symmetry; apply Z.ltb_lt; unfold JS.len; simpl; lia).
  unfold ret, formatFilterMeta.
  cbn [meta items activeFilters hasMorePages totalMatched totalScanned
       pagesScanned].
  replace (Z.min (Z.max 1 limit) (JS.len (@nil AnimeListItem.t))) with 0
    by (change (JS.len (@nil AnimeListItem.t)) with 0; lia).
  reflexivity.
Qed.

End SearchTool.

Lemma search_tool_reports_503 :
  exists r,
    mal_search_anime integral_toString search_fails "frieren" 10 0 false
      plain_args (0%nat, [])
    = (inr r, (1%nat, [(10, 0)]))
    /\ r = toolResult "Error: MAL API error 503 Service Unavailable: down" true.
Proof.
  destruct (search_tool_never_rejects integral_toString search_fails "frieren"
              10 0 false plain_args 0%nat)
    as (r & Hr & Herror).
  exists r. split; [exact Hr|exact Herror].
Defined.

Lemma plain_search_prints_page :
  hasActiveFilters (FilterParams_of (pickFilters plain_args ANIME_FILTER_KEYS))
  = false
  /\ search_ok (Some link) "frieren" 10 0 false 0%nat
     = (inr (anime_page (Some link)), 1%nat)
  /\ mal_search_anime integral_toString (search_ok (Some link)) "frieren" 10 0
       false plain_args (0%nat, [])
     = (inr (toolResult
               (formatAnimeList (data (anime_page (Some link)))
                  (paging (anime_page (Some link))))
               false),
        (1%nat, [(10, 0)])).
Proof.
  split; [reflexivity|]. split; [reflexivity|].
  exact (unfiltered_search_prints_the_page integral_toString
           (search_ok (Some link)) "frieren" 10 0 false plain_args
           0%nat 1%nat (anime_page (Some link)) eq_refl eq_refl).
Defined.

Lemma action_search_finds_nothing :
  hasActiveFilters (FilterParams_of (pickFilters action_args ANIME_FILTER_KEYS))
  = true
  /\ search_ok (Some link) "frieren" 100 0 false 0%nat
     = (inr (anime_page (Some link)), 1%nat)
  /\ exists text,
       mal_search_anime integral_toString (search_ok (Some link)) "frieren" 10 0
         false action_args (0%nat, [])
       = (inr (toolResult text false), (1%nat, [(100, 0)]))
       /\ text
          = "Showing 0 results (filtered from 2 scanned, 1 page) | Filters: genres(OR)=Action, min_score>=8"
            ++ LF ++ LF ++ "No anime found.".
Proof.
  split; [reflexivity|]. split; [reflexivity|].
  eexists. split.
  - apply (filtered_search_without_match integral_toString
             (search_ok (Some link)) "frieren" 10 0 false action_args
             0%nat 1%nat (anime_page (Some link)) eq_refl).
    + discriminate.
    + reflexivity.
    + intros item [<-|[<-|[]]]; reflexivity.
  - reflexivity.
Defined.

(** X22. Arguments that are not filter keys of the tool have no effect
    on [mal_search_anime]: two calls whose remaining arguments agree on
    the keys of [ANIME_FILTER_KEYS] behave alike, whatever else the
    arguments hold ([current_season_only] included, which is a key of
    the seasonal tool only). *)
Theorem search_tool_reads_only_its_filter_keys {L : LowerCasing} :
  forall (number_toString : Q -> string) (W : Type)
         (searchAnime :
            string -> Z -> Z -> bool ->
            Promise (E := Thrown) (W := W) (MalListResponse AnimeListItem.t))
         (query : string) (limit offset : Z) (nsfw : bool)
         (rest rest' : Obj.t),
    (forall k, In k ANIME_FILTER_KEYS -> Obj.get rest k = Obj.get rest' k) ->
    mal_search_anime number_toString searchAnime query limit offset nsfw rest
    = mal_search_anime number_toString searchAnime query limit offset nsfw rest'.
Proof.
  intros number_toString W searchAnime query limit offset nsfw rest rest' Hsame.
  unfold mal_search_anime.
  now rewrite (pickFilters_ext rest rest' ANIME_FILTER_KEYS Hsame).
Qed.

Lemma season_flag_is_no_search_filter :
  (forall k, In k ANIME_FILTER_KEYS ->
             Obj.get action_args k
             = Obj.get (Obj.set action_args "current_season_only" (VBoolean true)) k)
  /\ mal_search_anime integral_toString (search_ok (Some link)) "frieren" 10 0
       false action_args
     = mal_search_anime integral_toString (search_ok (Some link)) "frieren" 10 0
         false (Obj.set action_args "current_season_only" (VBoolean true)).
Proof.
  assert (H : forall k, In k ANIME_FILTER_KEYS ->
                        Obj.get action_args k
                        = Obj.get (Obj.set action_args "current_season_only"
                                     (VBoolean true)) k).
  { intros k Hk. simpl in Hk.
    repeat (destruct Hk as [<-|Hk]; [reflexivity|]). destruct Hk. }
  split; [exact H|].
  exact (search_tool_reads_only_its_filter_keys integral_toString nat
           (search_ok (Some link)) "frieren" 10 0 false _ _ H).
Defined.

(** X23. [hasActiveFilters] is false exactly on the filter objects whose
    fields, [genre_mode] apart, are all unset, [false] or an empty
    array; a threshold of 0 and an empty [status] string count as set,
    and [genre_mode] never does. *)
Theorem hasActiveFilters_false_iff_nothing_set :
  forall (f : FilterParams),
    (hasActiveFilters f = false <-> inactive_spec f)
    /\ (forall m, hasActiveFilters (with_genre_mode m f) = hasActiveFilters f)
    /\ (forall q, hasActiveFilters (with_min_score (Some q) f) = true)
    /\ (forall k, hasActiveFilters (with_min_members (Some k) f) = true).
Proof.
  intros f. split; [apply hasActiveFilters_false_iff|]. split; [|split].
  - intros m. unfold hasActiveFilters, entries, with_genre_mode; simpl.
    rewrite !existsb_app, !modifier_entry. reflexivity.
  - intros q. unfold hasActiveFilters, entries, with_min_score; simpl.
    rewrite !existsb_app. simpl. now rewrite !orb_true_r.
  - intros k. unfold hasActiveFilters, entries, with_min_members; simpl.
    rewrite !existsb_app. simpl. now rewrite !orb_true_r.
Qed.

Lemma zero_threshold_is_active :
  hasActiveFilters defaults = false
  /\ inactive_spec defaults
  /\ hasActiveFilters (with_min_score (Some 0%Q) defaults) = true.
Proof.
  split; [reflexivity|].
  split.
  - exact (proj1 (proj1 (hasActiveFilters_false_iff_nothing_set defaults))
             eq_refl).
  - exact (proj1 (proj2 (proj2 (hasActiveFilters_false_iff_nothing_set
                                  defaults))) 0%Q).
Defined.
